(** * SecurityManagerAI: sessions, two-factor gate and audit log

    A shallow embedding of [security_manager.py], followed by the email
    handler of [email_handler.py] and the coordinator of
    [ai_coordinator.py] that drives both.  The security manager keeps two
    pieces of mutable state, the dictionary [active_sessions] (token to
    session) and the list [access_logs]; its methods also read the wall
    clock ([datetime.now()]) and the operating system's random source
    ([secrets.token_urlsafe]).  Methods are computations in a state and
    exception monad over the object together with that environment.

    Conventions.
    - A [datetime] is an integer count of microseconds (the resolution of
      [datetime.now()]); [timedelta(seconds=n)] is [n * 1000000].  The
      calendar range of [datetime] is not represented.
    - [isoformat()] strings are represented by the datetime they print.
    - Every [datetime.now()] in the source is a separate clock reading.
    - Calls to [logging] write to the process log, not to the object, and
      are left out. *)

From Stdlib Require Import ZArith NArith Ascii String List Lia.
From Stdlib.Strings Require Import Byte.
From stdpp Require Import gmap strings list fin_maps.

Local Open Scope string_scope.
Local Open Scope list_scope.

(** ** Python values held in the configuration *)

(** The configuration comes from [json.load]; its values are dynamically
    typed and the constructor stores them unchecked.  Floating point
    numbers are not represented. *)
#[local] Set Warnings "-register-all".
Inductive pyval : Type :=
  | PNone
  | PBool (b : bool)
  | PInt (n : Z)
  | PStr (s : string)
  | PList (l : list pyval)
  | PDict (d : list (string * pyval)).

(** Truth value of an object, as tested by [if x:]. *)
Definition truthy (v : pyval) : bool :=
  match v with
  | PNone => false
  | PBool b => b
  | PInt n => negb (n =? 0)%Z
  | PStr s => negb (String.eqb s "")
  | PList l => match l with [] => false | _ => true end
  | PDict d => match d with [] => false | _ => true end
  end.

Inductive exn : Type :=
  | AttributeError
  | TypeError.

Inductive outcome (A : Type) : Type :=
  | Ret (a : A)
  | Raise (e : exn).
Arguments Ret {A} a.
Arguments Raise {A} e.

#[global] Instance outcome_ret : MRet outcome := λ A a, Ret a.
#[global] Instance outcome_bind : MBind outcome := λ A B f m,
  match m with
  | Ret a => f a
  | Raise e => Raise e
  end.

Fixpoint assoc_get (d : list (string * pyval)) (key : string) : option pyval :=
  match d with
  | [] => None
  | (k, v) :: d' => if String.eqb k key then Some v else assoc_get d' key
  end.

(** [obj.get(key, default)]: only a dict has the method. *)
Definition dict_get (obj : pyval) (key : string) (dflt : pyval) : outcome pyval :=
  match obj with
  | PDict d => Ret (default dflt (assoc_get d key))
  | _ => Raise AttributeError
  end.

(** ** Records for the dictionaries the class builds *)

(** A value of [active_sessions]. *)
Module Session.
Record t : Type := mk {
  username : string;
  created_at : Z;
  expires_at : Z;
  access_level : string
}.
End Session.

(** The dictionary returned by [authenticate_user].  The keys
    ['requires_2fa'] and ['2fa_verified'] are only sometimes present:
    [None] stands for an absent key.  For ['session_token'] and
    ['access_level'] [None] is Python's [None]. *)
Module AuthResult.
Record t : Type := mk {
  username : string;
  authenticated : bool;
  session_token : option string;
  access_level : option string;
  timestamp : Z;
  requires_2fa : option bool;
  twofa_verified : option bool
}.

Definition set_authenticated (b : bool) (r : t) : t :=
  mk (username r) b (session_token r) (access_level r) (timestamp r)
     (requires_2fa r) (twofa_verified r).
Definition set_session_token (tok : string) (r : t) : t :=
  mk (username r) (authenticated r) (Some tok) (access_level r) (timestamp r)
     (requires_2fa r) (twofa_verified r).
Definition set_access_level (lvl : string) (r : t) : t :=
  mk (username r) (authenticated r) (session_token r) (Some lvl) (timestamp r)
     (requires_2fa r) (twofa_verified r).
Definition set_requires_2fa (b : bool) (r : t) : t :=
  mk (username r) (authenticated r) (session_token r) (access_level r) (timestamp r)
     (Some b) (twofa_verified r).
Definition set_2fa_verified (b : bool) (r : t) : t :=
  mk (username r) (authenticated r) (session_token r) (access_level r) (timestamp r)
     (requires_2fa r) (Some b).
End AuthResult.

(** The dictionary returned by [secure_online_access]; ['access_level']
    and ['username'] are absent ([None]) unless access is granted. *)
Module AccessResult.
Record t : Type := mk {
  resource : string;
  access_granted : bool;
  reason : option string;
  timestamp : Z;
  access_level : option string;
  username : option string
}.

Definition set_reason (why : string) (r : t) : t :=
  mk (resource r) (access_granted r) (Some why) (timestamp r)
     (access_level r) (username r).
Definition set_access_granted (b : bool) (r : t) : t :=
  mk (resource r) b (reason r) (timestamp r) (access_level r) (username r).
Definition set_access_level (lvl : string) (r : t) : t :=
  mk (resource r) (access_granted r) (reason r) (timestamp r)
     (Some lvl) (username r).
Definition set_username (u : string) (r : t) : t :=
  mk (resource r) (access_granted r) (reason r) (timestamp r)
     (access_level r) (Some u).
End AccessResult.

(** An element of [access_logs]: the attempt's dictionary spread into a
    new one, with ['logged_at'] added. *)
Inductive attempt : Type :=
  | AuthAttempt (r : AuthResult.t)
  | AccessAttempt (r : AccessResult.t).

Record audit_entry : Type := mk_audit_entry {
  logged : attempt;
  logged_at : Z
}.

(** One element of the ['resources'] list of [enable_secure_access]. *)
Module ResourceSecurity.
Record t : Type := mk {
  resource : string;
  status : string;
  encryption : pyval;
  access_control : bool
}.
End ResourceSecurity.

Module SecureAccessResult.
Record t : Type := mk {
  resources_secured : nat;
  encryption_enabled : pyval;
  twofa_enabled : pyval;
  timestamp : Z;
  resources : list ResourceSecurity.t
}.

Definition append_resource (x : ResourceSecurity.t) (r : t) : t :=
  mk (resources_secured r) (encryption_enabled r) (twofa_enabled r)
     (timestamp r) (resources r ++ [x]).
End SecureAccessResult.

Module SecurityStatus.
Record t : Type := mk {
  active_sessions : nat;
  total_access_logs : nat;
  twofa_enabled : pyval;
  encryption_enabled : pyval;
  session_timeout : pyval
}.
End SecurityStatus.

(** ** The object *)

Record SecurityManagerAI : Type := mk_SecurityManagerAI {
  config : pyval;
  enable_2fa : pyval;
  session_timeout : pyval;
  encryption_enabled : pyval;
  access_levels : pyval;
  active_sessions : gmap string Session.t;
  access_logs : list audit_entry
}.

Definition set_active_sessions (m : gmap string Session.t)
    (self : SecurityManagerAI) : SecurityManagerAI :=
  mk_SecurityManagerAI (config self) (enable_2fa self) (session_timeout self)
    (encryption_enabled self) (access_levels self) m (access_logs self).

Definition set_access_logs (l : list audit_entry)
    (self : SecurityManagerAI) : SecurityManagerAI :=
  mk_SecurityManagerAI (config self) (enable_2fa self) (session_timeout self)
    (encryption_enabled self) (access_levels self) (active_sessions self) l.

(** [SecurityManagerAI.__init__]. *)
Definition __init__ (cfg : pyval) : outcome SecurityManagerAI :=
  c ← dict_get cfg "security_manager" (PDict []);
  e2 ← dict_get c "enable_2fa" (PBool true);
  st ← dict_get c "session_timeout" (PInt 3600);
  ee ← dict_get c "encryption_enabled" (PBool true);
  al ← dict_get c "access_levels" (PList [PStr "admin"; PStr "user"; PStr "guest"]);
  mret (mk_SecurityManagerAI c e2 st ee al ∅ []).

(** ** The environment and the monad of methods *)

(** What the methods read from outside the object: the successive
    readings of [datetime.now()], the successive bytes of the system's
    random source, and [hashlib]'s SHA-256 (as a function from the text
    to its hexadecimal digest). *)
Record Env : Type := mk_Env {
  clock : nat → Z;
  clock_reads : nat;
  urandom : nat → byte;
  urandom_reads : nat;
  sha256_hexdigest : string → string
}.

Record World : Type := mk_World {
  self : SecurityManagerAI;
  env : Env
}.

Definition M (A : Type) : Type := World → outcome A * World.

#[global] Instance M_ret : MRet M := λ A a w, (Ret a, w).
#[global] Instance M_bind : MBind M := λ A B f m w,
  match m w with
  | (Ret a, w') => f a w'
  | (Raise e, w') => (Raise e, w')
  end.

Definition lift {A : Type} (o : outcome A) : M A := λ w, (o, w).

Definition get_self : M SecurityManagerAI := λ w, (Ret (self w), w).

Definition put_self (s : SecurityManagerAI) : M unit :=
  λ w, (Ret tt, mk_World s (env w)).

(** [datetime.now()]. *)
Definition datetime_now : M Z := λ w,
  let e := env w in
  (Ret (clock e (clock_reads e)),
   mk_World (self w)
     (mk_Env (clock e) (S (clock_reads e)) (urandom e) (urandom_reads e)
        (sha256_hexdigest e))).

(** [secrets.token_bytes(nbytes)]. *)
Definition token_bytes (nbytes : nat) : M (list byte) := λ w,
  let e := env w in
  (Ret (map (urandom e) (seq (urandom_reads e) nbytes)),
   mk_World (self w)
     (mk_Env (clock e) (clock_reads e) (urandom e) (urandom_reads e + nbytes)
        (sha256_hexdigest e))).

(** [timedelta(seconds=v)], in microseconds; [bool] is a subclass of
    [int], any other non-numeric argument is a [TypeError]. *)
Definition timedelta_seconds (v : pyval) : outcome Z :=
  match v with
  | PInt n => Ret (n * 1000000)%Z
  | PBool b => Ret (if b then 1000000 else 0)%Z
  | _ => Raise TypeError
  end.

(** ** Session tokens: URL-safe Base64 without padding *)

Definition b64_alphabet : list ascii :=
  list_ascii_of_string
    "ABCDEFGHIJKLMNOPQRSTUVWXYZabcdefghijklmnopqrstuvwxyz0123456789-_".

Definition b64_char (i : N) : ascii :=
  nth (N.to_nat (N.land i 63)) b64_alphabet "A"%char.

Definition b64_pad : ascii := "="%char.

(** [base64.urlsafe_b64encode]: three bytes give four characters; a last
    group of one or two bytes is filled up with [=]. *)
Fixpoint urlsafe_b64encode (bs : list byte) : list ascii :=
  match bs with
  | [] => []
  | [b0] =>
      let n := N.shiftl (Byte.to_N b0) 16 in
      [b64_char (N.shiftr n 18); b64_char (N.shiftr n 12); b64_pad; b64_pad]
  | [b0; b1] =>
      let n := N.lor (N.shiftl (Byte.to_N b0) 16) (N.shiftl (Byte.to_N b1) 8) in
      [b64_char (N.shiftr n 18); b64_char (N.shiftr n 12);
       b64_char (N.shiftr n 6); b64_pad]
  | b0 :: b1 :: b2 :: rest =>
      let n := N.lor (N.lor (N.shiftl (Byte.to_N b0) 16)
                            (N.shiftl (Byte.to_N b1) 8)) (Byte.to_N b2) in
      b64_char (N.shiftr n 18) :: b64_char (N.shiftr n 12) ::
      b64_char (N.shiftr n 6) :: b64_char n :: urlsafe_b64encode rest
  end.

Fixpoint lstrip (c : ascii) (l : list ascii) : list ascii :=
  match l with
  | [] => []
  | x :: l' => if Ascii.eqb x c then lstrip c l' else l
  end.

(** [s.rstrip(c)] for a single character [c]. *)
Definition rstrip (c : ascii) (l : list ascii) : list ascii :=
  rev (lstrip c (rev l)).

(** [secrets.token_urlsafe(nbytes)]. *)
Definition token_urlsafe (nbytes : nat) : M string :=
  tok ← token_bytes nbytes;
  mret (string_of_list_ascii (rstrip b64_pad (urlsafe_b64encode tok))).

(** ** Methods *)

Definition generate_session_token : M string := token_urlsafe 32.

(** The digest is computed and handed back; no method keeps it. *)
Definition hash_password (password : string) : M string :=
  λ w, (Ret (sha256_hexdigest (env w) password), w).

(** Appends a copy of the attempt, stamped with a fresh clock reading. *)
Definition _log_access_attempt (a : attempt) : M unit :=
  t ← datetime_now;
  s ← get_self;
  put_self (set_access_logs (access_logs s ++ [mk_audit_entry a t]) s).

(** Lines 78-87 of [authenticate_user], the second-factor gate: [inl] is
    the early [return auth_result], [inr] goes on to session creation. *)
Definition check_2fa (s : SecurityManagerAI) (two_fa_code : option string)
    (auth_result : AuthResult.t) : AuthResult.t + AuthResult.t :=
  if truthy (enable_2fa s) then
    match two_fa_code with
    | None =>
        inl (AuthResult.set_authenticated false
               (AuthResult.set_requires_2fa true auth_result))
    | Some _ => inr (AuthResult.set_2fa_verified true auth_result)
    end
  else inr auth_result.

(** Lines 89-102 of [authenticate_user].  The dictionary display is
    evaluated left to right: the reading for ['created_at'], the reading
    for ['expires_at'], then the [timedelta]; the store is written last. *)
Definition create_session (username : string) (auth_result : AuthResult.t)
    : M AuthResult.t :=
  if AuthResult.authenticated auth_result then
    session_token ← generate_session_token;
    let auth_result := AuthResult.set_session_token session_token auth_result in
    let auth_result := AuthResult.set_access_level "user" auth_result in
    created ← datetime_now;
    base ← datetime_now;
    s ← get_self;
    ttl ← lift (timedelta_seconds (session_timeout s));
    put_self (set_active_sessions
                (<[session_token := Session.mk username created (base + ttl) "user"]>
                   (active_sessions s)) s);;
    mret auth_result
  else mret auth_result.

(** [two_fa_code] is [None] when the argument is left out. *)
Definition authenticate_user (username password : string)
    (two_fa_code : option string) : M AuthResult.t :=
  now ← datetime_now;
  let auth_result :=
    AuthResult.mk username false None None now None None in
  password_hash ← hash_password password;
  let auth_result := AuthResult.set_authenticated true auth_result in
  s ← get_self;
  match check_2fa s two_fa_code auth_result with
  | inl auth_result => mret auth_result
  | inr auth_result =>
      auth_result ← create_session username auth_result;
      _log_access_attempt (AuthAttempt auth_result);;
      mret auth_result
  end.

(** A stored session is a dict with four keys, hence true as a
    condition: [not session] holds exactly when the token is not in the
    store. *)
Definition secure_online_access (session_token resource : string)
    : M AccessResult.t :=
  now ← datetime_now;
  let result := AccessResult.mk resource false None now None None in
  s ← get_self;
  match active_sessions s !! session_token with
  | None =>
      mret (AccessResult.set_reason "Invalid session token" result)
  | Some session =>
      now ← datetime_now;
      if bool_decide (Session.expires_at session < now)%Z then
        let result := AccessResult.set_reason "Session expired" result in
        put_self (set_active_sessions
                    (delete session_token (active_sessions s)) s);;
        mret result
      else
        let result := AccessResult.set_access_granted true result in
        let result :=
          AccessResult.set_access_level (Session.access_level session) result in
        let result :=
          AccessResult.set_username (Session.username session) result in
        _log_access_attempt (AccessAttempt result);;
        mret result
  end.

Definition enable_secure_access (resources : list string)
    : M SecureAccessResult.t :=
  s ← get_self;
  now ← datetime_now;
  let result :=
    SecureAccessResult.mk (length resources) (encryption_enabled s)
      (enable_2fa s) now [] in
  mret (foldl (λ result resource,
                 SecureAccessResult.append_resource
                   (ResourceSecurity.mk resource "secured"
                      (encryption_enabled s) true) result)
              result resources).

Definition get_security_status : M SecurityStatus.t :=
  s ← get_self;
  mret (SecurityStatus.mk (size (active_sessions s)) (length (access_logs s))
          (enable_2fa s) (encryption_enabled s) (session_timeout s)).

(** The tokens to drop are collected first and deleted one by one; the
    order in which the items are visited affects neither the store nor
    the count. *)
Definition cleanup_expired_sessions : M nat :=
  current_time ← datetime_now;
  s ← get_self;
  let expired_tokens :=
    (filter (λ kv, (Session.expires_at kv.2 < current_time)%Z)
            (map_to_list (active_sessions s))).*1 in
  put_self (set_active_sessions
              (foldl (λ m token, delete token m) (active_sessions s)
                     expired_tokens) s);;
  mret (length expired_tokens).

(** ** Running a method *)

(** The world a call leaves behind. *)
Definition world_after {A : Type} (m : M A) (w : World) : World := (m w).2.

Definition sessions_of (w : World) : gmap string Session.t :=
  active_sessions (self w).

Definition logs_of (w : World) : list audit_entry := access_logs (self w).

(** The reading the [n]-th next [datetime.now()] returns in [w]. *)
Definition reading (w : World) (n : nat) : Z :=
  clock (env w) (n + clock_reads (env w)).

(** The token the next [generate_session_token] returns in [w]. *)
Definition next_token (w : World) : string :=
  string_of_list_ascii
    (rstrip b64_pad
       (urlsafe_b64encode
          (map (urandom (env w)) (seq (urandom_reads (env w)) 32)))).

#[global] Arguments next_token : simpl never.
#[global] Arguments reading : simpl never.

Definition expired (now : Z) (kv : string * Session.t) : Prop :=
  (Session.expires_at kv.2 < now)%Z.

#[global] Instance expired_dec now kv : Decision (expired now kv).
Proof. unfold expired. apply _. Defined.

(** The session [authenticate_user] stores on success. *)
Definition new_session (w : World) (username : string) (ttl : Z) : Session.t :=
  Session.mk username (reading w 1) (reading w 2 + ttl) "user".

(** What every call leaves alone: the clock itself and the configured
    timeout. *)
Definition same_setting (w w' : World) : Prop :=
  clock (env w') = clock (env w) ∧
  session_timeout (self w') = session_timeout (self w).

(** ** Sequences of calls *)

Inductive call : Type :=
  | AuthenticateUser (username password : string) (two_fa_code : option string)
  | SecureOnlineAccess (session_token resource : string)
  | EnableSecureAccess (resources : list string)
  | GetSecurityStatus
  | CleanupExpiredSessions.

Definition exec (c : call) (w : World) : World :=
  match c with
  | AuthenticateUser u p code => world_after (authenticate_user u p code) w
  | SecureOnlineAccess tok r => world_after (secure_online_access tok r) w
  | EnableSecureAccess rs => world_after (enable_secure_access rs) w
  | GetSecurityStatus => world_after get_security_status w
  | CleanupExpiredSessions => world_after cleanup_expired_sessions w
  end.

Definition exec_all (cs : list call) (w : World) : World :=
  foldl (λ w c, exec c w) w cs.

(** ** Example worlds *)

Definition example_config : pyval :=
  PDict [("security_manager",
          PDict [("enable_2fa", PBool true); ("session_timeout", PInt 3600);
                 ("encryption_enabled", PBool true)])].

Definition example_manager : SecurityManagerAI :=
  mk_SecurityManagerAI
    (PDict [("enable_2fa", PBool true); ("session_timeout", PInt 3600);
            ("encryption_enabled", PBool true)])
    (PBool true) (PInt 3600) (PBool true)
    (PList [PStr "admin"; PStr "user"; PStr "guest"]) ∅ [].

(** A clock that advances by a millisecond between readings, random
    bytes 0, 1, 2, ..., and a stand-in for the digest. *)
Definition example_env : Env :=
  mk_Env (λ n, Z.of_nat n * 1000)%Z 0
         (λ n, default Byte.x00 (Byte.of_nat (n `mod` 256))) 0
         (λ s, s).

Definition example_world : World := mk_World example_manager example_env.

(** The same manager with 2FA switched off. *)
Definition example_manager_no_2fa : SecurityManagerAI :=
  mk_SecurityManagerAI (config example_manager) (PBool false) (PInt 3600)
    (PBool true) (access_levels example_manager) ∅ [].

(** A store holding one session that ran out after one second and one
    that is still good, read five seconds after the first was made. *)
Definition stale_sessions : gmap string Session.t :=
  <["stale-token" := Session.mk "alice" 0 1000000 "user"]>
    (<["fresh-token" := Session.mk "bob" 4000000 3604000000 "user"]> ∅).

Definition stale_world : World :=
  mk_World (set_active_sessions stale_sessions example_manager)
    (mk_Env (λ n, 5000000 + Z.of_nat n)%Z 0 (urandom example_env) 0
       (sha256_hexdigest example_env)).

(** ** The configuration section [__init__] reads *)

(** The dictionary [config.get('security_manager', {})] evaluates to,
    when [config] is a dict and that value is one too. *)
Definition config_section (cfg : pyval) : option (list (string * pyval)) :=
  match cfg with
  | PDict d =>
      match assoc_get d "security_manager" with
      | None => Some []
      | Some (PDict c) => Some c
      | Some _ => None
      end
  | _ => None
  end.

(** A configuration lacks a required field when no section can be read
    or the section has no entry for it. *)
Definition missing_required_field (cfg : pyval) : bool :=
  match config_section cfg with
  | None => true
  | Some c =>
      negb (bool_decide (is_Some (assoc_get c "enable_2fa")) &&
            bool_decide (is_Some (assoc_get c "session_timeout")))
  end.

(** ** Verification codes *)

(** [str(n)] for a non-negative integer: its decimal digits, most
    significant first, with no leading zero. *)
Definition digit_char (d : N) : ascii := ascii_of_N (48 + d).

Fixpoint digits_of (fuel : nat) (n : N) (acc : list ascii) : list ascii :=
  match fuel with
  | O => acc
  | S fuel' =>
      let acc' := digit_char (n mod 10) :: acc in
      if (n / 10 =? 0)%N then acc' else digits_of fuel' (n / 10) acc'
  end.

Definition str_of_N (n : N) : list ascii :=
  digits_of (S (N.to_nat (N.log2 n))) n [].

(** [s.zfill(width)]: zeros are put in front, after a leading sign. *)
Definition zfill (width : nat) (s : list ascii) : list ascii :=
  let fill := repeat "0"%char (width - length s) in
  match s with
  | c :: rest =>
      if Ascii.eqb c "+" || Ascii.eqb c "-" then c :: fill ++ rest
      else fill ++ s
  | [] => fill
  end.

(** [generate_2fa_code], given the number [secrets.randbelow(1000000)]
    has drawn (some [drawn] with [0 <= drawn < 1000000]). *)
Definition generate_2fa_code (drawn : N) : string :=
  string_of_list_ascii (zfill 6 (str_of_N drawn)).

Definition is_digit (c : ascii) : Prop :=
  (48 <= N_of_ascii c <= 57)%N.

(** [int(s)] for a string of decimal digits. *)
Definition int_of_digits (s : list ascii) : N :=
  fold_left (λ acc c, 10 * acc + (N_of_ascii c - 48))%N s 0%N.

(** * email_handler.py *)

(** An email is a dictionary; the code reads and writes the five keys
    below, and [None] stands for an absent key.  [received_at] holds the
    datetime whose [isoformat()] the source stores. *)
Module Email.
Record t : Type := mk {
  id : option string;
  subject : option string;
  sender : option string;
  content : option string;
  received_at : option Z
}.
End Email.

(** The dictionary [process_emails] builds for an email; the keys
    ['auto_response_sent'] and ['response'] are absent ([None]) unless a
    response was generated. *)
Module Processed.
Record t : Type := mk {
  id : string;
  subject : string;
  sender : string;
  category : string;
  processed_at : Z;
  status : string;
  auto_response_sent : option bool;
  response : option string
}.

Definition set_auto_response_sent (b : bool) (p : t) : t :=
  mk (id p) (subject p) (sender p) (category p) (processed_at p) (status p)
     (Some b) (response p).
Definition set_response (text : string) (p : t) : t :=
  mk (id p) (subject p) (sender p) (category p) (processed_at p) (status p)
     (auto_response_sent p) (Some text).
End Processed.

Module Statistics.
Record t : Type := mk {
  total_processed : nat;
  by_category : gmap string nat
}.
End Statistics.

(** [str(n)] for a natural number, as the f-strings use it. *)
Definition str_of_nat (n : nat) : string :=
  string_of_list_ascii (str_of_N (N.of_nat n)).

(** [needle in hay] for strings. *)
Fixpoint is_substring (needle hay : string) : bool :=
  String.prefix needle hay ||
  match hay with
  | EmptyString => false
  | String _ hay' => is_substring needle hay'
  end.

(** [any(keyword in subject for keyword in keywords)]. *)
Definition contains_any (keywords : list string) (subject : string) : bool :=
  existsb (λ keyword, is_substring keyword subject) keywords.

(** [l[:k]]: a negative [k] counts from the end. *)
Definition slice_to {A : Type} (k : Z) (l : list A) : list A :=
  if (0 <=? k)%Z then take (Z.to_nat k) l
  else take (length l - Z.to_nat (- k)) l.

Module EmailHandler.

(** The object, with each configured field at the type of its default
    (an integer, a list of strings, a boolean). *)
Record t : Type := mk {
  max_emails : Z;
  batch_size : Z;
  categories : list string;
  auto_response : bool;
  processed_emails : list Processed.t
}.

Definition set_processed_emails (l : list Processed.t) (self : t) : t :=
  mk (max_emails self) (batch_size self) (categories self)
     (auto_response self) l.

(** What a method sees: the object, the clock, and [str.lower] (the
    host's case mapping, a function on text). *)
Record World : Type := mk_World {
  handler : t;
  env : Env;
  str_lower : string → string
}.

Definition M (A : Type) : Type := World → A * World.

#[global] Instance M_ret : MRet M := λ A a w, (a, w).
#[global] Instance M_bind : MBind M := λ A B f m w,
  let '(a, w') := m w in f a w'.

Definition get_self : M t := λ w, (handler w, w).

Definition put_self (s : t) : M unit :=
  λ w, (tt, mk_World s (env w) (str_lower w)).

(** The case mapping in force. *)
Definition get_lower : M (string → string) := λ w, (str_lower w, w).

(** [datetime.now()]. *)
Definition datetime_now : M Z := λ w,
  let e := env w in
  (clock e (clock_reads e),
   mk_World (handler w)
     (mk_Env (clock e) (S (clock_reads e)) (urandom e) (urandom_reads e)
        (sha256_hexdigest e))
     (str_lower w)).

(** [categorize_email]; [lower] is [str.lower]. *)
Definition categorize_email (lower : string → string) (email : Email.t)
    : string :=
  let subject := lower (default "" (Email.subject email)) in
  if contains_any ["urgent"; "asap"; "critical"; "emergency"] subject
  then "urgent"
  else if contains_any ["important"; "required"; "action needed"] subject
  then "important"
  else if contains_any ["fyi"; "update"; "notification"] subject
  then "normal"
  else "low_priority".

Definition _generate_auto_response (email : Email.t) : string :=
  String.append "Thank you for your email regarding '"
    (String.append (default "your message" (Email.subject email))
       "'. We have received it and will respond shortly.").

(** The body of the loop of [process_emails], for the email at index [i]. *)
Definition process_one (i : nat) (email : Email.t) : M Processed.t :=
  lower ← get_lower;
  let category := categorize_email lower email in
  now ← datetime_now;
  let processed :=
    Processed.mk
      (default (String.append "email_" (str_of_nat (i + 1))) (Email.id email))
      (default "No Subject" (Email.subject email))
      (default "Unknown" (Email.sender email))
      category now "processed" None None in
  self ← get_self;
  let processed :=
    if auto_response self &&
       (String.eqb category "urgent" || String.eqb category "important")
    then Processed.set_response (_generate_auto_response email)
           (Processed.set_auto_response_sent true processed)
    else processed in
  self ← get_self;
  put_self (set_processed_emails (processed_emails self ++ [processed]) self);;
  mret processed.

Fixpoint process_loop (i : nat) (emails : list Email.t)
    (results : list Processed.t) : M (list Processed.t) :=
  match emails with
  | [] => mret results
  | email :: rest =>
      processed ← process_one i email;
      process_loop (S i) rest (results ++ [processed])
  end.

Definition process_emails (emails : list Email.t) : M (list Processed.t) :=
  self ← get_self;
  let emails :=
    if (max_emails self <? Z.of_nat (length emails))%Z
    then slice_to (max_emails self) emails
    else emails in
  process_loop 0 emails [].

Definition get_statistics : M Statistics.t :=
  self ← get_self;
  mret (Statistics.mk (length (processed_emails self))
          (foldl (λ by_category category,
                    <[category :=
                        length (filter (λ e, Processed.category e = category)
                                  (processed_emails self))]> by_category)
                 ∅ (categories self))).

(** The body of the loop of [open_emails]. *)
Definition open_one (i : nat) : M Email.t :=
  now ← datetime_now;
  mret (Email.mk
          (Some (String.append "email_" (str_of_nat (i + 1))))
          (Some (String.append "Email Subject " (str_of_nat (i + 1))))
          (Some (String.append "sender"
                   (String.append (str_of_nat (i + 1)) "@example.com")))
          (Some (String.append "This is the content of email "
                   (str_of_nat (i + 1))))
          (Some now)).

Fixpoint open_loop (indices : list nat) (emails : list Email.t)
    : M (list Email.t) :=
  match indices with
  | [] => mret emails
  | i :: rest =>
      email ← open_one i;
      open_loop rest (emails ++ [email])
  end.

(** [range(count)] is empty for a [count] below one. *)
Definition open_emails (count : Z) : M (list Email.t) :=
  self ← get_self;
  let count := Z.min count (max_emails self) in
  open_loop (seq 0 (Z.to_nat count)) [].

End EmailHandler.

(** ** Example handlers *)

(** [str.lower] on ASCII text: [A]-[Z] become [a]-[z]. *)
Definition ascii_lower_char (c : ascii) : ascii :=
  let n := N_of_ascii c in
  if (65 <=? n)%N && (n <=? 90)%N then ascii_of_N (n + 32) else c.

Fixpoint ascii_lower (s : string) : string :=
  match s with
  | EmptyString => EmptyString
  | String c s' => String (ascii_lower_char c) (ascii_lower s')
  end.

Definition is_ascii (s : string) : Prop :=
  Forall (λ c, (N_of_ascii c < 128)%N) (list_ascii_of_string s).

(** [lower] is right about ASCII text. *)
Definition lowers_ascii (lower : string → string) : Prop :=
  ∀ s, is_ascii s → lower s = ascii_lower s.

Definition default_categories : list string :=
  ["urgent"; "important"; "normal"; "low_priority"].

(** A handler built from an empty configuration. *)
Definition example_handler : EmailHandler.t :=
  EmailHandler.mk 50 10 default_categories true [].

Definition example_handler_world : EmailHandler.World :=
  EmailHandler.mk_World example_handler example_env ascii_lower.

Definition example_inbox : list Email.t :=
  [Email.mk (Some "m-1") (Some "URGENT: server down") (Some "ops@example.com")
     None None;
   Email.mk None (Some "Weekly update") None None None;
   Email.mk None None (Some "nobody@example.com") None None].

(** ** What [process_emails] records for one email *)

Definition wants_response (self : EmailHandler.t) (category : string) : bool :=
  EmailHandler.auto_response self &&
  (String.eqb category "urgent" || String.eqb category "important").

(** [p] is the record made for [email], the [i]-th of the batch (from 0),
    at clock reading [now], by the handler of [w]. *)
Definition processed_from (w : EmailHandler.World) (i : nat) (email : Email.t)
    (now : Z) (p : Processed.t) : Prop :=
  Processed.id p =
    default (String.append "email_" (str_of_nat (i + 1))) (Email.id email) ∧
  Processed.subject p = default "No Subject" (Email.subject email) ∧
  Processed.sender p = default "Unknown" (Email.sender email) ∧
  Processed.category p =
    EmailHandler.categorize_email (EmailHandler.str_lower w) email ∧
  Processed.processed_at p = now ∧
  Processed.status p = "processed" ∧
  Processed.auto_response_sent p =
    (if wants_response (EmailHandler.handler w) (Processed.category p)
     then Some true else None) ∧
  Processed.response p =
    (if wants_response (EmailHandler.handler w) (Processed.category p)
     then Some (EmailHandler._generate_auto_response email) else None).

(** The emails [process_emails] goes through. *)
Definition kept_emails (self : EmailHandler.t) (emails : list Email.t)
    : list Email.t :=
  if (EmailHandler.max_emails self <? Z.of_nat (length emails))%Z
  then slice_to (EmailHandler.max_emails self) emails
  else emails.

(** What the handler's methods leave alone. *)
Definition same_handler_setting (w w' : EmailHandler.World) : Prop :=
  EmailHandler.max_emails (EmailHandler.handler w')
    = EmailHandler.max_emails (EmailHandler.handler w) ∧
  EmailHandler.categories (EmailHandler.handler w')
    = EmailHandler.categories (EmailHandler.handler w) ∧
  EmailHandler.auto_response (EmailHandler.handler w')
    = EmailHandler.auto_response (EmailHandler.handler w) ∧
  EmailHandler.str_lower w' = EmailHandler.str_lower w ∧
  clock (EmailHandler.env w') = clock (EmailHandler.env w).

(** The reading the [n]-th next [datetime.now()] returns to the handler. *)
Definition handler_reading (w : EmailHandler.World) (n : nat) : Z :=
  clock (EmailHandler.env w) (n + clock_reads (EmailHandler.env w)).

#[global] Arguments handler_reading : simpl never.
#[global] Arguments str_of_nat : simpl never.
#[global] Arguments contains_any : simpl never.
#[global] Arguments EmailHandler._generate_auto_response : simpl never.
#[global] Arguments EmailHandler.categorize_email : simpl never.

(** The email [open_emails] makes up for index [i] (from 0) at clock
    reading [now]. *)
Definition simulated_email (i : nat) (now : Z) : Email.t :=
  Email.mk
    (Some (String.append "email_" (str_of_nat (i + 1))))
    (Some (String.append "Email Subject " (str_of_nat (i + 1))))
    (Some (String.append "sender"
             (String.append (str_of_nat (i + 1)) "@example.com")))
    (Some (String.append "This is the content of email "
             (str_of_nat (i + 1))))
    (Some now).

(** The keywords [categorize_email] looks for. *)
Definition all_keywords : list string :=
  ["urgent"; "asap"; "critical"; "emergency";
   "important"; "required"; "action needed";
   "fyi"; "update"; "notification"].

Definition is_digit_b (c : ascii) : bool :=
  (48 <=? N_of_ascii c)%N && (N_of_ascii c <=? 57)%N.

(** * ai_coordinator.py *)

(** [secure_online_access] handed the ['session_token'] entry of the
    authentication result, which is a token or [None]; [None] is no key
    of the store and is refused like an unknown token. *)
Definition secure_online_access_entry (session_token : option string)
    (resource : string) : M AccessResult.t :=
  match session_token with
  | Some token => secure_online_access token resource
  | None =>
      now ← datetime_now;
      mret (AccessResult.set_reason "Invalid session token"
              (AccessResult.mk resource false None now None None))
  end.

Module Coordinator.

(** The dictionary [coordinate_email_processing] returns. *)
Module EmailTask.
Record t : Type := mk {
  task : string;
  emails_opened : nat;
  emails_processed : nat;
  statistics : Statistics.t;
  timestamp : Z;
  status : string
}.
End EmailTask.

(** The dictionary [coordinate_secure_access] returns when done; the
    two nested dictionaries are flattened into [username],
    [authenticated], [twofa_verified] and [email_system]. *)
Module SecureTask.
Record t : Type := mk {
  task : string;
  username : string;
  authenticated : bool;
  twofa_verified : bool;
  resources_secured : nat;
  email_system : bool;
  security_status : SecurityStatus.t;
  timestamp : Z;
  status : string
}.
End SecureTask.

(** The dictionary it returns when authentication is refused. *)
Module FailedTask.
Record t : Type := mk {
  task : string;
  status : string;
  reason : string;
  timestamp : Z
}.
End FailedTask.

Inductive task_result : Type :=
  | Email (r : EmailTask.t)
  | Secure (r : SecureTask.t)
  | Failed (r : FailedTask.t).

(** [t['status']]. *)
Definition status_of (t : task_result) : string :=
  match t with
  | Email r => EmailTask.status r
  | Secure r => SecureTask.status r
  | Failed r => FailedTask.status r
  end.

Module Summary.
Record t : Type := mk {
  total_tasks : nat;
  successful_tasks : nat;
  emails_processed : nat;
  security_enabled : bool;
  coordination_completed : Z
}.
End Summary.

(** The dictionary [run_full_coordination] returns; both entries of
    ['ai_agents'] are the constant ['active']. *)
Module FullResult.
Record t : Type := mk {
  coordination_started : Z;
  email_handler_agent : string;
  security_manager_agent : string;
  tasks : list task_result;
  summary : Summary.t
}.
End FullResult.

Module Report.
Record t : Type := mk {
  total_tasks : nat;
  tasks : list task_result;
  email_statistics : Statistics.t;
  security_status : SecurityStatus.t;
  generated_at : Z
}.
End Report.

(** The object: the two agents and the task log. *)
Record t : Type := mk {
  email_handler : EmailHandler.t;
  security_manager : SecurityManagerAI;
  task_log : list task_result
}.

(** What a method sees: the object, the clock and random source, and
    [str.lower]. *)
Record System : Type := mk_System {
  coordinator : t;
  sys_env : Env;
  sys_lower : string → string
}.

Definition C (A : Type) : Type := System → outcome A * System.

#[global] Instance C_ret : MRet C := λ A a s, (Ret a, s).
#[global] Instance C_bind : MBind C := λ A B f m s,
  match m s with
  | (Ret a, s') => f a s'
  | (Raise e, s') => (Raise e, s')
  end.

(** A method of [self.security_manager], run on that object. *)
Definition on_security_manager {A : Type} (m : M A) : C A := λ s,
  let '(o, w) := m (mk_World (security_manager (coordinator s)) (sys_env s)) in
  (o, mk_System
        (mk (email_handler (coordinator s)) (self w) (task_log (coordinator s)))
        (env w) (sys_lower s)).

(** A method of [self.email_handler], run on that object. *)
Definition on_email_handler {A : Type} (m : EmailHandler.M A) : C A := λ s,
  let '(a, w) :=
    m (EmailHandler.mk_World (email_handler (coordinator s)) (sys_env s)
         (sys_lower s)) in
  (Ret a,
   mk_System
     (mk (EmailHandler.handler w) (security_manager (coordinator s))
         (task_log (coordinator s)))
     (EmailHandler.env w) (sys_lower s)).

(** [datetime.now()]. *)
Definition datetime_now : C Z := λ s,
  let e := sys_env s in
  (Ret (clock e (clock_reads e)),
   mk_System (coordinator s)
     (mk_Env (clock e) (S (clock_reads e)) (urandom e) (urandom_reads e)
        (sha256_hexdigest e))
     (sys_lower s)).

(** [self.task_log.append(result)]. *)
Definition log_task (result : task_result) : C unit := λ s,
  (Ret tt,
   mk_System
     (mk (email_handler (coordinator s)) (security_manager (coordinator s))
         (task_log (coordinator s) ++ [result]))
     (sys_env s) (sys_lower s)).


Definition coordinate_email_processing (num_emails : Z) : C EmailTask.t :=
  emails ← on_email_handler (EmailHandler.open_emails num_emails);
  processed_results ← on_email_handler (EmailHandler.process_emails emails);
  stats ← on_email_handler EmailHandler.get_statistics;
  now ← datetime_now;
  let result :=
    EmailTask.mk "email_processing" (length emails) (length processed_results)
      stats now "completed" in
  log_task (Email result);;
  mret result.

Definition coordinate_secure_access (username password : string)
    : C task_result :=
  auth_result ←
    on_security_manager (authenticate_user username password (Some "123456"));
  if negb (AuthResult.authenticated auth_result) then
    now ← datetime_now;
    mret (Failed (FailedTask.mk "secure_access" "failed"
                    "Authentication failed" now))
  else
    secure_result ←
      on_security_manager
        (enable_secure_access
           ["email_system"; "file_storage"; "user_dashboard"; "api_gateway";
            "database"]);
    let session_token := AuthResult.session_token auth_result in
    access_result ←
      on_security_manager
        (secure_online_access_entry session_token "email_system");
    security_status ← on_security_manager get_security_status;
    now ← datetime_now;
    let result :=
      Secure (SecureTask.mk "secure_access" username
                (AuthResult.authenticated auth_result)
                (default false (AuthResult.twofa_verified auth_result))
                (SecureAccessResult.resources_secured secure_result)
                (AccessResult.access_granted access_result)
                security_status now "completed") in
    log_task result;;
    mret result.

Definition run_full_coordination (num_emails : Z) : C FullResult.t :=
  started ← datetime_now;
  secure_result ← coordinate_secure_access "admin" "secure_password";
  let tasks := [secure_result] in
  email_result ← coordinate_email_processing num_emails;
  let tasks := tasks ++ [Email email_result] in
  completed ← datetime_now;
  mret (FullResult.mk started "active" "active" tasks
          (Summary.mk (length tasks)
             (length (filter (λ t, status_of t = "completed") tasks))
             (EmailTask.emails_processed email_result)
             (bool_decide (status_of secure_result = "completed"))
             completed)).


End Coordinator.

(** ** An example system *)

Definition example_system : Coordinator.System :=
  Coordinator.mk_System
    (Coordinator.mk example_handler example_manager [])
    example_env ascii_lower.

(** The reading the [n]-th next [datetime.now()] returns in the system. *)
Definition system_reading (s : Coordinator.System) (n : nat) : Z :=
  clock (Coordinator.sys_env s) (n + clock_reads (Coordinator.sys_env s)).

#[global] Arguments system_reading : simpl never.

(** The security manager of the system with the system's clock, and the
    email handler likewise. *)
Definition security_world (s : Coordinator.System) : World :=
  mk_World (Coordinator.security_manager (Coordinator.coordinator s))
    (Coordinator.sys_env s).

Definition handler_world (s : Coordinator.System) : EmailHandler.World :=
  EmailHandler.mk_World (Coordinator.email_handler (Coordinator.coordinator s))
    (Coordinator.sys_env s) (Coordinator.sys_lower s).

(** The system after a method of the security manager has left [w], and
    after a method of the email handler has left [hw]. *)
Definition with_security (s : Coordinator.System) (w : World)
    : Coordinator.System :=
  Coordinator.mk_System
    (Coordinator.mk (Coordinator.email_handler (Coordinator.coordinator s))
       (self w) (Coordinator.task_log (Coordinator.coordinator s)))
    (env w) (Coordinator.sys_lower s).

Definition with_handler (s : Coordinator.System) (hw : EmailHandler.World)
    : Coordinator.System :=
  Coordinator.mk_System
    (Coordinator.mk (EmailHandler.handler hw)
       (Coordinator.security_manager (Coordinator.coordinator s))
       (Coordinator.task_log (Coordinator.coordinator s)))
    (EmailHandler.env hw) (Coordinator.sys_lower s).

Definition tasks_of (s : Coordinator.System) : list Coordinator.task_result :=
  Coordinator.task_log (Coordinator.coordinator s).

(** * Properties *)

(** ** Tokens are never empty *)






Lemma generate_session_token_run (w : World) :
  generate_session_token w =
    (Ret (next_token w),
     mk_World (self w)
       (mk_Env (clock (env w)) (clock_reads (env w)) (urandom (env w))
          (urandom_reads (env w) + 32) (sha256_hexdigest (env w)))).
Proof. reflexivity. Qed.

#[local] Opaque generate_session_token.

Ltac unfold_m :=
  unfold mbind, M_bind, mret, M_ret, lift, get_self, put_self,
    datetime_now, hash_password; cbn.

(** ** [authenticate_user] *)

(** The second-factor gate returns early exactly when 2FA is on and no
    code came with the call. *)
Lemma check_2fa_early (s : SecurityManagerAI) (r : AuthResult.t) :
  truthy (enable_2fa s) = true →
  check_2fa s None r =
    inl (AuthResult.set_authenticated false (AuthResult.set_requires_2fa true r)).
Proof. intros H. unfold check_2fa. by rewrite H. Qed.

Lemma check_2fa_pass (s : SecurityManagerAI) (code : option string)
    (r : AuthResult.t) :
  truthy (enable_2fa s) = false ∨ code ≠ None →
  ∃ v, check_2fa s code r = inr (AuthResult.mk (AuthResult.username r)
         (AuthResult.authenticated r) (AuthResult.session_token r)
         (AuthResult.access_level r) (AuthResult.timestamp r)
         (AuthResult.requires_2fa r) v).
Proof.
  intros H. unfold check_2fa.
  destruct (truthy (enable_2fa s)); [|destruct r; eauto].
  destruct code; [eauto | destruct H; congruence].
Qed.

(** Full success: what is returned and what is left behind. *)
Lemma authenticate_user_success (w : World) (username password : string)
    (code : option string) (ttl : Z) :
  truthy (enable_2fa (self w)) = false ∨ code ≠ None →
  timedelta_seconds (session_timeout (self w)) = Ret ttl →
  ∃ r w',
    authenticate_user username password code w = (Ret r, w') ∧
    AuthResult.username r = username ∧
    AuthResult.authenticated r = true ∧
    AuthResult.session_token r = Some (next_token w) ∧
    AuthResult.access_level r = Some "user" ∧
    AuthResult.requires_2fa r = None ∧
    sessions_of w' =
      <[next_token w := new_session w username ttl]> (sessions_of w) ∧
    logs_of w' =
      logs_of w ++ [mk_audit_entry (AuthAttempt r) (reading w 3)] ∧
    same_setting w w'.
Proof.
  intros Hgate Httl. unfold authenticate_user. unfold_m.
  destruct (check_2fa_pass (self w) code
              (AuthResult.set_authenticated true
                 (AuthResult.mk username false None None
                    (clock (env w) (clock_reads (env w))) None None)) Hgate)
    as [v ->].
  unfold create_session, _log_access_attempt. unfold_m.
  rewrite generate_session_token_run. cbn. rewrite Httl. cbn.
  eexists _, _. split; [reflexivity|].
  repeat split; reflexivity.
Qed.

(** The early return: nothing but the clock position changes. *)
Lemma authenticate_user_2fa_required (w : World) (username password : string) :
  truthy (enable_2fa (self w)) = true →
  authenticate_user username password None w =
    (Ret (AuthResult.mk username false None None (reading w 0) (Some true) None),
     world_after datetime_now w).
Proof.
  intros H2fa. unfold authenticate_user. unfold_m.
  rewrite check_2fa_early by exact H2fa. reflexivity.
Qed.

(** ** [secure_online_access] *)

Lemma secure_online_access_unknown (w : World) (token resource : string) :
  sessions_of w !! token = None →
  secure_online_access token resource w =
    (Ret (AccessResult.mk resource false (Some "Invalid session token")
            (reading w 0) None None),
     world_after datetime_now w).
Proof.
  intros Hnone. unfold secure_online_access. unfold_m.
  unfold sessions_of in Hnone. rewrite Hnone. reflexivity.
Qed.

Lemma secure_online_access_expired (w : World) (token resource : string)
    (session : Session.t) :
  sessions_of w !! token = Some session →
  (Session.expires_at session < reading w 1)%Z →
  ∃ w',
    secure_online_access token resource w =
      (Ret (AccessResult.mk resource false (Some "Session expired")
              (reading w 0) None None), w') ∧
    sessions_of w' = delete token (sessions_of w) ∧
    logs_of w' = logs_of w ∧
    clock (env w') = clock (env w) ∧
    clock_reads (env w') = 2 + clock_reads (env w).
Proof.
  intros Hsome Hexp. unfold secure_online_access. unfold_m.
  unfold sessions_of in Hsome. rewrite Hsome. unfold_m.
  rewrite bool_decide_eq_true_2 by exact Hexp.
  eexists. split; [reflexivity|]. repeat split; reflexivity.
Qed.

Lemma secure_online_access_granted (w : World) (token resource : string)
    (session : Session.t) :
  sessions_of w !! token = Some session →
  ¬ (Session.expires_at session < reading w 1)%Z →
  ∃ r w',
    secure_online_access token resource w = (Ret r, w') ∧
    r = AccessResult.mk resource true None (reading w 0)
          (Some (Session.access_level session))
          (Some (Session.username session)) ∧
    sessions_of w' = sessions_of w ∧
    logs_of w' = logs_of w ++ [mk_audit_entry (AccessAttempt r) (reading w 2)].
Proof.
  intros Hsome Hlive. unfold secure_online_access. unfold_m.
  unfold sessions_of in Hsome. rewrite Hsome. unfold_m.
  rewrite bool_decide_eq_false_2 by exact Hlive.
  unfold _log_access_attempt. unfold_m.
  eexists _, _. split; [reflexivity|]. repeat split; reflexivity.
Qed.

(** ** [cleanup_expired_sessions] *)

Lemma lookup_foldl_delete (ks : list string) (m : gmap string Session.t)
    (k : string) :
  foldl (λ m token, delete token m) m ks !! k =
    if decide (k ∈ ks) then None else m !! k.
Proof.
  revert m. induction ks as [|k' ks IH]; intros m; simpl.
  - done.
  - rewrite IH. rewrite (decide_ext _ _ _ _ (elem_of_cons ks k k')).
    destruct (decide (k ∈ ks)) as [Hin|Hnin].
    + by rewrite decide_True by (by right).
    + destruct (decide (k = k')) as [->|Hne].
      * rewrite lookup_delete_eq. by rewrite decide_True by (by left).
      * rewrite lookup_delete_ne by done.
        by rewrite decide_False by (by intros [?|?]).
Qed.

(** Deleting the collected tokens one by one is filtering the map. *)
Lemma delete_expired_is_filter (now : Z) (m : gmap string Session.t) :
  foldl (λ m token, delete token m) m
        (filter (expired now) (map_to_list m)).*1 =
  filter (λ kv, ¬ expired now kv) m.
Proof.
  apply map_eq. intros k. rewrite lookup_foldl_delete, map_lookup_filter.
  destruct (m !! k) as [s|] eqn:Hk; simpl.
  - destruct (decide (expired now (k, s))) as [He|He].
    + rewrite decide_True.
      * by rewrite option_guard_False by (intros Hn; by apply Hn).
      * apply list_elem_of_fmap. exists (k, s). split; [done|].
        apply list_elem_of_filter. split; [done|].
        by apply elem_of_map_to_list.
    + rewrite option_guard_True by done. rewrite decide_False; [done|].
      intros ([k' s'] & -> & [He' Hin%elem_of_map_to_list]%list_elem_of_filter)%list_elem_of_fmap.
      simpl in *. congruence.
  - by destruct (decide _).
Qed.

Lemma length_expired_tokens (now : Z) (m : gmap string Session.t) :
  length (filter (expired now) (map_to_list m)).*1 =
  size (filter (expired now) m).
Proof.
  rewrite length_fmap, (map_filter_alt (expired now) m).
  rewrite map_size_list_to_map; [done|].
  eapply sublist_NoDup; [apply (NoDup_fst_map_to_list m)|].
  apply fmap_sublist, sublist_filter.
Qed.

Lemma size_expired_partition (now : Z) (m : gmap string Session.t) :
  size m = size (filter (expired now) m) + size (filter (λ kv, ¬ expired now kv) m).
Proof.
  rewrite <- map_size_disj_union by apply map_disjoint_filter_complement.
  by rewrite map_filter_union_complement.
Qed.

Lemma cleanup_expired_sessions_run (w : World) :
  ∃ w',
    cleanup_expired_sessions w =
      (Ret (size (filter (expired (reading w 0)) (sessions_of w))), w') ∧
    sessions_of w' = filter (λ kv, ¬ expired (reading w 0) kv) (sessions_of w) ∧
    logs_of w' = logs_of w ∧
    clock (env w') = clock (env w) ∧
    clock_reads (env w') = 1 + clock_reads (env w).
Proof.
  unfold cleanup_expired_sessions. unfold_m.
  eexists. split.
  - rewrite <- (length_expired_tokens (reading w 0) (sessions_of w)). reflexivity.
  - unfold sessions_of at 1. cbn.
    split; [apply (delete_expired_is_filter (reading w 0))|].
    repeat split; reflexivity.
Qed.

(** ** What a call can do to the store *)

Lemma authenticate_user_type_error (w : World) (username password : string)
    (code : option string) (e : exn) :
  truthy (enable_2fa (self w)) = false ∨ code ≠ None →
  timedelta_seconds (session_timeout (self w)) = Raise e →
  ∃ w',
    authenticate_user username password code w = (Raise e, w') ∧
    self w' = self w ∧ same_setting w w'.
Proof.
  intros Hgate Httl. unfold authenticate_user. unfold_m.
  destruct (check_2fa_pass (self w) code
              (AuthResult.set_authenticated true
                 (AuthResult.mk username false None None
                    (clock (env w) (clock_reads (env w))) None None)) Hgate)
    as [v ->].
  unfold create_session. unfold_m.
  rewrite generate_session_token_run. cbn. rewrite Httl. cbn.
  eexists. split; [reflexivity|]. repeat split; reflexivity.
Qed.

Lemma gate_cases (s : SecurityManagerAI) (code : option string) :
  (truthy (enable_2fa s) = false ∨ code ≠ None) ∨
  (truthy (enable_2fa s) = true ∧ code = None).
Proof.
  destruct (truthy (enable_2fa s)); [|by left; left].
  destruct code; [left; by right | by right].
Qed.

(** The three ways [authenticate_user] can end: refused at the gate,
    failed on a timeout that is not a number, or a session stored under
    the new token. *)
Lemma authenticate_user_cases (w : World) (username password : string)
    (code : option string) :
  (sessions_of (world_after (authenticate_user username password code) w)
     = sessions_of w ∨
   ∃ ttl, timedelta_seconds (session_timeout (self w)) = Ret ttl ∧
          sessions_of (world_after (authenticate_user username password code) w)
            = <[next_token w := new_session w username ttl]> (sessions_of w)) ∧
  same_setting w (world_after (authenticate_user username password code) w).
Proof.
  unfold world_after.
  destruct (gate_cases (self w) code) as [Hgate|[H2fa ->]].
  - destruct (timedelta_seconds (session_timeout (self w))) as [ttl|e] eqn:Httl.
    + destruct (authenticate_user_success w username password code ttl Hgate Httl)
        as (r & w' & -> & _ & _ & _ & _ & _ & Hsess & _ & Hsame).
      split; [right; eauto | exact Hsame].
    + destruct (authenticate_user_type_error w username password code e Hgate Httl)
        as (w' & -> & Hself & Hsame).
      split; [left | exact Hsame]. unfold sessions_of. simpl. by rewrite Hself.
  - rewrite authenticate_user_2fa_required by exact H2fa.
    split; [by left | by split].
Qed.

Lemma secure_online_access_cases (w : World) (token resource : string) :
  (sessions_of (world_after (secure_online_access token resource) w)
     = sessions_of w ∨
   sessions_of (world_after (secure_online_access token resource) w)
     = delete token (sessions_of w)) ∧
  same_setting w (world_after (secure_online_access token resource) w).
Proof.
  unfold world_after, same_setting, sessions_of, secure_online_access.
  unfold_m. destruct (active_sessions (self w) !! token) as [session|];
    [|cbn; auto].
  unfold_m. case_bool_decide; unfold _log_access_attempt; unfold_m; auto.
Qed.

Lemma enable_secure_access_frame (w : World) (resources : list string) :
  self (world_after (enable_secure_access resources) w) = self w ∧
  same_setting w (world_after (enable_secure_access resources) w).
Proof. split; [|split]; reflexivity. Qed.

Lemma get_security_status_frame (w : World) :
  world_after get_security_status w = w.
Proof. by destruct w. Qed.

Lemma cleanup_expired_sessions_frame (w : World) :
  sessions_of (world_after cleanup_expired_sessions w)
    = filter (λ kv, ¬ expired (reading w 0) kv) (sessions_of w) ∧
  same_setting w (world_after cleanup_expired_sessions w).
Proof.
  split; [|split; reflexivity].
  destruct (cleanup_expired_sessions_run w) as (w' & Hrun & Hsess & _).
  unfold world_after. by rewrite Hrun.
Qed.

Lemma exec_same_setting (c : call) (w : World) : same_setting w (exec c w).
Proof.
  destruct c as [u p code|token resource|resources| |]; simpl.
  - apply authenticate_user_cases.
  - apply secure_online_access_cases.
  - apply enable_secure_access_frame.
  - by rewrite get_security_status_frame.
  - apply cleanup_expired_sessions_frame.
Qed.

(** A call either leaves a stored session as it was or is the
    [authenticate_user] that has just written it. *)
Lemma exec_session_origin (c : call) (w : World) (token : string)
    (session : Session.t) :
  sessions_of (exec c w) !! token = Some session →
  sessions_of w !! token = Some session ∨
  ∃ username password code ttl,
    c = AuthenticateUser username password code ∧
    token = next_token w ∧
    timedelta_seconds (session_timeout (self w)) = Ret ttl ∧
    session = new_session w username ttl.
Proof.
  destruct c as [u p code|tok resource|resources| |]; simpl.
  - destruct (authenticate_user_cases w u p code) as [[->|(ttl & Httl & ->)] _];
      [by left|].
    intros [[<- <-]|[_ Hold]]%lookup_insert_Some; [right|by left].
    by exists u, p, code, ttl.
  - destruct (secure_online_access_cases w tok resource) as [[->| ->] _];
      [by left|].
    intros [_ Hold]%lookup_delete_Some. by left.
  - destruct (enable_secure_access_frame w resources) as [Hself _].
    unfold sessions_of. rewrite Hself. by left.
  - rewrite get_security_status_frame. by left.
  - destruct (cleanup_expired_sessions_frame w) as [-> _].
    intros [Hold _]%map_lookup_filter_Some. by left.
Qed.

(** ** Construction *)

Lemma init_example : __init__ example_config = Ret example_manager.
Proof. reflexivity. Qed.

(** C4, as stated, fails: the empty configuration has neither
    [enable_2fa] nor [session_timeout], and construction goes through with
    the built-in values [True] and [3600]. *)
Lemma init_missing_fields_not_fatal :
  missing_required_field (PDict []) = true ∧
  ¬ (∃ e, __init__ (PDict []) = Raise e) ∧
  ∃ s, __init__ (PDict []) = Ret s ∧
       enable_2fa s = PBool true ∧ session_timeout s = PInt 3600.
Proof.
  split; [reflexivity|]. split.
  - intros [e He]. discriminate He.
  - eexists. split; [reflexivity|]. split; reflexivity.
Qed.

(** C4, amended: construction never fails because a field is missing.
    When the configuration is a dict whose ['security_manager'] entry is
    absent or a dict, the object is built with each field taken from that
    section, or set to its built-in value ([enable_2fa] to [True],
    [session_timeout] to [3600]) when the section has no such key, with no
    sessions and an empty log.  Construction fails, with an
    [AttributeError], exactly when the configuration or that entry is not
    a dict. *)
Theorem init_defaults_missing_fields (cfg : pyval) :
  match config_section cfg with
  | Some c =>
      ∃ s, __init__ cfg = Ret s ∧
           enable_2fa s = default (PBool true) (assoc_get c "enable_2fa") ∧
           session_timeout s = default (PInt 3600) (assoc_get c "session_timeout") ∧
           encryption_enabled s =
             default (PBool true) (assoc_get c "encryption_enabled") ∧
           active_sessions s = ∅ ∧ access_logs s = []
  | None => __init__ cfg = Raise AttributeError
  end.
Proof.
  unfold config_section, __init__.
  destruct cfg as [| | | | |d]; try reflexivity.
  cbn. destruct (assoc_get d "security_manager") as [[| | | | |c]|];
    try reflexivity; cbn; eexists; (split; [reflexivity|]); repeat split.
Qed.

(** ** The audit log *)

(** C1: the three refusals return before [_log_access_attempt] is
    reached.  With 2FA on and no code, with an unknown token, and with an
    expired session, the call leaves [access_logs] as it was, where the
    claim has it one entry longer. *)
Theorem refusals_leave_no_audit_entry :
  (∃ r w',
     authenticate_user "alice" "pw" None example_world = (Ret r, w') ∧
     AuthResult.authenticated r = false ∧
     AuthResult.requires_2fa r = Some true ∧
     length (logs_of w') = length (logs_of example_world)) ∧
  (∃ r w',
     secure_online_access "no-such-token" "email_system" example_world
       = (Ret r, w') ∧
     AccessResult.access_granted r = false ∧
     AccessResult.reason r = Some "Invalid session token" ∧
     length (logs_of w') = length (logs_of example_world)) ∧
  (∃ r w',
     secure_online_access "stale-token" "email_system" stale_world
       = (Ret r, w') ∧
     AccessResult.access_granted r = false ∧
     AccessResult.reason r = Some "Session expired" ∧
     length (logs_of w') = length (logs_of stale_world)).
Proof.
  split; [|split].
  - rewrite authenticate_user_2fa_required by reflexivity.
    eexists _, _. split; [reflexivity|]. repeat split.
  - rewrite secure_online_access_unknown by reflexivity.
    eexists _, _. split; [reflexivity|]. repeat split.
  - destruct (secure_online_access_expired stale_world "stale-token"
                "email_system" (Session.mk "alice" 0 1000000 "user"))
      as (w' & Hrun & _ & Hlogs & _); [reflexivity | reflexivity |].
    eexists _, w'. split; [exact Hrun|]. rewrite Hlogs. repeat split.
Qed.

(** ** Expired sessions *)

(** C2, as stated, fails on the reason: an expired session is refused
    with ['Session expired'], not with the reason given for an unknown
    token. *)
Lemma expired_reason_is_not_invalid_token :
  sessions_of stale_world !! "stale-token"
    = Some (Session.mk "alice" 0 1000000 "user") ∧
  (Session.expires_at (Session.mk "alice" 0 1000000 "user")
     < reading stale_world 1)%Z ∧
  ∃ r w',
    secure_online_access "stale-token" "email_system" stale_world = (Ret r, w') ∧
    AccessResult.reason r = Some "Session expired" ∧
    AccessResult.reason r ≠ Some "Invalid session token".
Proof.
  split; [reflexivity|]. split; [reflexivity|].
  destruct (secure_online_access_expired stale_world "stale-token"
              "email_system" (Session.mk "alice" 0 1000000 "user"))
    as (w' & Hrun & _); [reflexivity | reflexivity |].
  eexists _, w'. split; [exact Hrun|].
  split; [reflexivity | discriminate].
Qed.

(** C2, amended: for every stored session whose [expires_at] lies before
    the clock reading taken at the expiry check, [secure_online_access]
    returns [access_granted = False] with reason ['Session expired'] and
    deletes the session (and nothing else) in the same call; the next call
    with the same token finds no session and is refused with
    ['Invalid session token']. *)
Theorem secure_online_access_evicts_expired (w : World)
    (token resource resource' : string) (session : Session.t) :
  sessions_of w !! token = Some session →
  (Session.expires_at session < reading w 1)%Z →
  ∃ r w',
    secure_online_access token resource w = (Ret r, w') ∧
    AccessResult.access_granted r = false ∧
    AccessResult.reason r = Some "Session expired" ∧
    sessions_of w' = delete token (sessions_of w) ∧
    sessions_of w' !! token = None ∧
    ∃ r2 w'',
      secure_online_access token resource' w' = (Ret r2, w'') ∧
      AccessResult.access_granted r2 = false ∧
      AccessResult.reason r2 = Some "Invalid session token" ∧
      sessions_of w'' = sessions_of w'.
Proof.
  intros Hsome Hexp.
  destruct (secure_online_access_expired w token resource session Hsome Hexp)
    as (w' & Hrun & Hsess & _).
  assert (Hgone : sessions_of w' !! token = None).
  { rewrite Hsess. apply lookup_delete_eq. }
  eexists _, w'. split; [exact Hrun|]. do 4 (split; [done|]).
  eexists _, _. split; [apply secure_online_access_unknown, Hgone|].
  repeat split.
Qed.

Lemma secure_online_access_evicts_expired_witness :
  ∃ r w',
    secure_online_access "stale-token" "email_system" stale_world = (Ret r, w') ∧
    AccessResult.access_granted r = false ∧
    AccessResult.reason r = Some "Session expired" ∧
    sessions_of w' = delete "stale-token" (sessions_of stale_world) ∧
    sessions_of w' !! "stale-token" = None ∧
    ∃ r2 w'',
      secure_online_access "stale-token" "file_storage" w' = (Ret r2, w'') ∧
      AccessResult.access_granted r2 = false ∧
      AccessResult.reason r2 = Some "Invalid session token" ∧
      sessions_of w'' = sessions_of w'.
Proof.
  apply (secure_online_access_evicts_expired stale_world "stale-token"
           "email_system" "file_storage" (Session.mk "alice" 0 1000000 "user")).
  - reflexivity.
  - reflexivity.
Defined.

(** ** The second-factor gate *)



(** ** Successful authentication *)



(** ** Verification is a stub *)



(** ** [enable_secure_access] *)

(** The loop appends one entry per resource, in order. *)
Lemma append_resources_is_map (e : pyval) (rs : list string)
    (r0 : SecureAccessResult.t) :
  foldl (λ result resource,
           SecureAccessResult.append_resource
             (ResourceSecurity.mk resource "secured" e true) result) r0 rs =
  SecureAccessResult.mk (SecureAccessResult.resources_secured r0)
    (SecureAccessResult.encryption_enabled r0)
    (SecureAccessResult.twofa_enabled r0) (SecureAccessResult.timestamp r0)
    (SecureAccessResult.resources r0 ++
       map (λ resource, ResourceSecurity.mk resource "secured" e true) rs).
Proof.
  revert r0. induction rs as [|x rs IH]; intros r0; simpl.
  - rewrite app_nil_r. by destruct r0.
  - rewrite IH. unfold SecureAccessResult.append_resource. simpl.
    by rewrite <- app_assoc.
Qed.

(** C7, amended: the result counts the resources and lists one entry per
    resource, in order; each entry carries the resource name, the status
    ['secured'], the current [encryption_enabled] flag and a constant
    [access_control = True].  The [enable_2fa] flag is reported once, as
    the result's own ['2fa_enabled'] field, not per resource.  The object
    (sessions and audit log included) is unchanged. *)
Theorem enable_secure_access_echoes_config (w : World) (resources : list string) :
  ∃ r w',
    enable_secure_access resources w = (Ret r, w') ∧
    SecureAccessResult.resources_secured r = length resources ∧
    SecureAccessResult.resources r =
      map (λ resource,
             ResourceSecurity.mk resource "secured"
               (encryption_enabled (self w)) true) resources ∧
    length (SecureAccessResult.resources r) = length resources ∧
    SecureAccessResult.encryption_enabled r = encryption_enabled (self w) ∧
    SecureAccessResult.twofa_enabled r = enable_2fa (self w) ∧
    self w' = self w.
Proof.
  unfold enable_secure_access. unfold_m. rewrite append_resources_is_map.
  eexists _, _. split; [reflexivity|]. simpl.
  repeat split. apply length_map.
Qed.

(** C7, as stated, fails: no reading of a per-resource entry gives the
    [enable_2fa] flag, since a manager with 2FA on and one with 2FA off
    return the same entries. *)
Lemma resource_entries_do_not_reflect_2fa :
  ¬ ∃ flag : ResourceSecurity.t → pyval,
      ∀ w resources r w',
        enable_secure_access resources w = (Ret r, w') →
        Forall (λ entry, flag entry = enable_2fa (self w))
               (SecureAccessResult.resources r).
Proof.
  intros [flag Hflag].
  pose proof (Hflag example_world ["email_system"] _ _ eq_refl) as Hon.
  pose proof (Hflag (mk_World example_manager_no_2fa example_env)
                ["email_system"] _ _ eq_refl) as Hoff.
  cbn in Hon, Hoff.
  apply Forall_cons_1 in Hon as [Hon _]. apply Forall_cons_1 in Hoff as [Hoff _].
  rewrite Hon in Hoff. discriminate Hoff.
Qed.

(** ** Sweeping *)

(** C9: the sweep removes exactly the sessions whose [expires_at] lies
    before its clock reading and returns how many they were.  A second
    sweep right after it returns 0 and removes nothing, provided no
    session left in the store has expired by the second reading; this is
    so in particular when the second reading is not later than the
    first. *)
Theorem cleanup_expired_sessions_sweeps (w : World) :
  ∃ n w1,
    cleanup_expired_sessions w = (Ret n, w1) ∧
    n = size (filter (expired (reading w 0)) (sessions_of w)) ∧
    size (sessions_of w) = n + size (sessions_of w1) ∧
    (∀ token session,
       sessions_of w1 !! token = Some session ↔
       sessions_of w !! token = Some session ∧
       ¬ (Session.expires_at session < reading w 0)%Z) ∧
    ((∀ token session,
        sessions_of w1 !! token = Some session →
        ¬ (Session.expires_at session < reading w 1)%Z) →
     ∃ w2, cleanup_expired_sessions w1 = (Ret 0, w2) ∧
           sessions_of w2 = sessions_of w1) ∧
    ((reading w 1 ≤ reading w 0)%Z →
     ∃ w2, cleanup_expired_sessions w1 = (Ret 0, w2) ∧
           sessions_of w2 = sessions_of w1).
Proof.
  destruct (cleanup_expired_sessions_run w)
    as (w1 & Hrun & Hsess & _ & Hclock & Hreads).
  assert (Hlook : ∀ token session,
     sessions_of w1 !! token = Some session ↔
     sessions_of w !! token = Some session ∧
     ¬ (Session.expires_at session < reading w 0)%Z).
  { intros token session. rewrite Hsess. apply map_lookup_filter_Some. }
  assert (Hnext : reading w1 0 = reading w 1).
  { unfold reading. rewrite Hclock, Hreads. reflexivity. }
  assert (Hagain : (∀ token session,
        sessions_of w1 !! token = Some session →
        ¬ (Session.expires_at session < reading w 1)%Z) →
     ∃ w2, cleanup_expired_sessions w1 = (Ret 0, w2) ∧
           sessions_of w2 = sessions_of w1).
  { intros Hnone.
    destruct (cleanup_expired_sessions_run w1) as (w2 & Hrun2 & Hsess2 & _).
    rewrite Hnext in Hrun2, Hsess2.
    assert (Hempty : filter (expired (reading w 1)) (sessions_of w1) = ∅).
    { apply map_empty_filter. intros token session Hin. by apply Hnone in Hin. }
    rewrite Hempty, map_size_empty in Hrun2.
    exists w2. split; [exact Hrun2|]. rewrite Hsess2.
    apply map_filter_id. intros token session Hin. by apply Hnone in Hin. }
  exists (size (filter (expired (reading w 0)) (sessions_of w))), w1.
  split; [exact Hrun|]. split; [reflexivity|].
  split; [rewrite Hsess; apply size_expired_partition|].
  split; [exact Hlook|]. split; [exact Hagain|].
  intros Hle. apply Hagain. intros token session [_ Hlive]%Hlook. lia.
Qed.

Lemma cleanup_expired_sessions_sweeps_witness :
  ∃ w1 w2,
    cleanup_expired_sessions stale_world = (Ret 1, w1) ∧
    sessions_of w1 !! "stale-token" = None ∧
    cleanup_expired_sessions w1 = (Ret 0, w2) ∧
    sessions_of w2 = sessions_of w1.
Proof.
  destruct (cleanup_expired_sessions_sweeps stale_world)
    as (n & w1 & Hrun & Hn & _ & Hlook & Hagain & _).
  assert (Hone : n = 1) by (rewrite Hn; reflexivity).
  rewrite Hone in Hrun.
  destruct Hagain as (w2 & Hrun2 & Hsame).
  { intros token session [Hin Hlive]%Hlook.
    unfold sessions_of, stale_world, stale_sessions in Hin. simpl in Hin.
    apply lookup_insert_Some in Hin as [[_ <-]|[_ Hin]].
    - exfalso. apply Hlive. reflexivity.
    - apply lookup_insert_Some in Hin as [[_ <-]|[_ Hin]]; [|done].
      intros Hlt. discriminate Hlt. }
  exists w1, w2. split; [exact Hrun|]. split; [|by split].
  destruct (sessions_of w1 !! "stale-token") as [s|] eqn:Hs; [|done].
  apply Hlook in Hs as [Hin Hlive]. exfalso. apply Hlive.
  injection Hin as <-. reflexivity.
Defined.

(** ** [get_security_status] *)

(** C10: the status reports the size of the session map and the length
    of the log, and returns the world as it found it.  Nothing is
    evicted: at any time [now], the reported count is the sessions
    already expired plus those still live, and so it is what a sweep at
    [now] would remove plus what the status would report after it. *)
Theorem get_security_status_counts_raw (w : World) :
  ∃ st,
    get_security_status w = (Ret st, w) ∧
    SecurityStatus.active_sessions st = size (sessions_of w) ∧
    SecurityStatus.total_access_logs st = length (logs_of w) ∧
    (∀ now,
       SecurityStatus.active_sessions st =
         size (filter (expired now) (sessions_of w)) +
         size (filter (λ kv, ¬ expired now kv) (sessions_of w))) ∧
    ∃ n w1 st1,
      cleanup_expired_sessions w = (Ret n, w1) ∧
      get_security_status w1 = (Ret st1, w1) ∧
      SecurityStatus.active_sessions st = n + SecurityStatus.active_sessions st1.
Proof.
  destruct (cleanup_expired_sessions_run w) as (w1 & Hrun & Hsess & _).
  eexists. split; [destruct w; reflexivity|]. simpl.
  split; [reflexivity|]. split; [reflexivity|].
  split; [intros now; apply size_expired_partition|].
  eexists _, w1, _. split; [exact Hrun|].
  split; [destruct w1; reflexivity|]. simpl.
  fold (sessions_of w1). rewrite Hsess. apply size_expired_partition.
Qed.

(** An expired session that nobody has looked up is reported as active. *)
Lemma get_security_status_counts_stale :
  ∃ st,
    get_security_status stale_world = (Ret st, stale_world) ∧
    SecurityStatus.active_sessions st = 2 ∧
    size (filter (expired (reading stale_world 0)) (sessions_of stale_world)) = 1.
Proof. eexists. split; [reflexivity|]. split; reflexivity. Qed.

(** ** Sessions are written once *)

(** Along any run that starts with an empty store, every stored session
    was stamped from two successive clock readings. *)
Lemma exec_all_sessions_stamped (cs : list call) (w0 w : World) :
  same_setting w0 w →
  (∀ token session,
     sessions_of w !! token = Some session →
     ∃ i ttl,
       timedelta_seconds (session_timeout (self w0)) = Ret ttl ∧
       Session.created_at session = clock (env w0) i ∧
       Session.expires_at session = (clock (env w0) (S i) + ttl)%Z) →
  ∀ token session,
    sessions_of (exec_all cs w) !! token = Some session →
    ∃ i ttl,
      timedelta_seconds (session_timeout (self w0)) = Ret ttl ∧
      Session.created_at session = clock (env w0) i ∧
      Session.expires_at session = (clock (env w0) (S i) + ttl)%Z.
Proof.
  revert w. induction cs as [|c cs IH]; intros w [Hclock Htimeout] Hinv;
    [exact Hinv|].
  change (exec_all (c :: cs) w) with (exec_all cs (exec c w)).
  refine (IH (exec c w) _ _).
  - destruct (exec_same_setting c w) as [Hclock' Htimeout'].
    split; congruence.
  - intros token session
      [Hold|(u & p & code & ttl & _ & _ & Httl & ->)]%exec_session_origin;
      [exact (Hinv _ _ Hold)|].
    exists (1 + clock_reads (env w)), ttl.
    rewrite <- Htimeout, <- Hclock. by split.
Qed.

(** C8, as stated, fails: ['created_at'] and ['expires_at'] are computed
    from two separate readings of the clock, so when the clock moves
    between them the difference is not the configured timeout. *)
Lemma expiry_is_not_creation_plus_timeout :
  ∃ token session,
    sessions_of (exec (AuthenticateUser "alice" "pw" (Some "123456"))
                   example_world) !! token = Some session ∧
    timedelta_seconds (session_timeout (self example_world))
      = Ret 3600000000%Z ∧
    Session.expires_at session ≠ (Session.created_at session + 3600000000)%Z.
Proof.
  destruct (authenticate_user_success example_world "alice" "pw"
              (Some "123456") 3600000000%Z)
    as (r & w' & Hrun & _ & _ & _ & _ & _ & Hsess & _);
    [by right | reflexivity |].
  exists (next_token example_world),
         (new_session example_world "alice" 3600000000%Z).
  split; [|split; [reflexivity | discriminate]].
  simpl. unfold world_after. rewrite Hrun. simpl. rewrite Hsess.
  apply lookup_insert_eq.
Qed.

(** C8, amended.  A session is written once, by the [authenticate_user]
    call that issues its token, with [created_at] the second clock
    reading of that call and [expires_at] the third reading plus the
    configured timeout; the two agree with
    [expires_at = created_at + timeout] only up to the time between the
    readings, and [expires_at] is at least [created_at + timeout] when
    the clock does not run backwards.  After that no call changes what is
    stored under a token: whatever a call leaves in the store was there
    before it, unless the call is the [authenticate_user] that issued
    that token.  The timeout itself is never changed, and a granted
    [secure_online_access] leaves the whole store as it was. *)
Theorem sessions_fixed_at_creation :
  (∀ (c : call) (w : World) (token : string) (session : Session.t),
     sessions_of (exec c w) !! token = Some session →
     sessions_of w !! token = Some session ∨
     ∃ username password code ttl,
       c = AuthenticateUser username password code ∧
       token = next_token w ∧
       timedelta_seconds (session_timeout (self w)) = Ret ttl ∧
       Session.created_at session = reading w 1 ∧
       Session.expires_at session = (reading w 2 + ttl)%Z) ∧
  (∀ (cs : list call) (w0 : World) (token : string) (session : Session.t),
     sessions_of w0 = ∅ →
     sessions_of (exec_all cs w0) !! token = Some session →
     ∃ i ttl,
       timedelta_seconds (session_timeout (self w0)) = Ret ttl ∧
       session_timeout (self (exec_all cs w0)) = session_timeout (self w0) ∧
       Session.created_at session = clock (env w0) i ∧
       Session.expires_at session = (clock (env w0) (S i) + ttl)%Z ∧
       ((clock (env w0) i ≤ clock (env w0) (S i))%Z →
        (Session.created_at session + ttl ≤ Session.expires_at session)%Z)) ∧
  (∀ (w : World) (token resource : string) (r : AccessResult.t) (w' : World),
     secure_online_access token resource w = (Ret r, w') →
     AccessResult.access_granted r = true →
     sessions_of w' = sessions_of w).
Proof.
  split; [|split].
  - intros c w token session
      [Hold|(u & p & code & ttl & Hc & Htok & Httl & ->)]%exec_session_origin;
      [by left|].
    right. by exists u, p, code, ttl.
  - intros cs w0 token session Hempty Hin.
    assert (Hstart : ∀ tok s,
        sessions_of w0 !! tok = Some s →
        ∃ i ttl,
          timedelta_seconds (session_timeout (self w0)) = Ret ttl ∧
          Session.created_at s = clock (env w0) i ∧
          Session.expires_at s = (clock (env w0) (S i) + ttl)%Z).
    { intros tok s. rewrite Hempty, lookup_empty. discriminate. }
    destruct (exec_all_sessions_stamped cs w0 w0 (conj eq_refl eq_refl)
                Hstart token session Hin) as (i & ttl & Httl & Hc & He).
    exists i, ttl. split; [exact Httl|]. split.
    + clear. revert w0. induction cs as [|c cs IH]; intros w0; [done|].
      change (exec_all (c :: cs) w0) with (exec_all cs (exec c w0)).
      rewrite IH. apply exec_same_setting.
    + split; [exact Hc|]. split; [exact He|]. lia.
  - intros w token resource r w' Hrun Hgranted.
    destruct (sessions_of w !! token) as [session|] eqn:Hlook.
    + destruct (decide (Session.expires_at session < reading w 1)%Z)
        as [Hexp|Hlive].
      * destruct (secure_online_access_expired w token resource session
                    Hlook Hexp) as (w2 & Hrun2 & _).
        rewrite Hrun in Hrun2. injection Hrun2 as -> _. discriminate Hgranted.
      * destruct (secure_online_access_granted w token resource session
                    Hlook Hlive) as (r2 & w2 & Hrun2 & _ & Hsess & _).
        rewrite Hrun in Hrun2. by injection Hrun2 as _ ->.
    + rewrite (secure_online_access_unknown w token resource Hlook) in Hrun.
      injection Hrun as <- _. discriminate Hgranted.
Qed.

Lemma sessions_fixed_at_creation_witness :
  ∃ token session,
    sessions_of (exec (AuthenticateUser "alice" "pw" (Some "123456"))
                   example_world) !! token = Some session ∧
    (sessions_of example_world !! token = Some session ∨
     ∃ username password code ttl,
       AuthenticateUser "alice" "pw" (Some "123456")
         = AuthenticateUser username password code ∧
       token = next_token example_world ∧
       timedelta_seconds (session_timeout (self example_world)) = Ret ttl ∧
       Session.created_at session = reading example_world 1 ∧
       Session.expires_at session = (reading example_world 2 + ttl)%Z).
Proof.
  destruct (authenticate_user_success example_world "alice" "pw"
              (Some "123456") 3600000000%Z)
    as (r & w' & Hrun & _ & _ & _ & _ & _ & Hsess & _);
    [by right | reflexivity |].
  assert (Hin : sessions_of (exec (AuthenticateUser "alice" "pw" (Some "123456"))
                   example_world) !! next_token example_world
                = Some (new_session example_world "alice" 3600000000%Z)).
  { simpl. unfold world_after. rewrite Hrun. simpl. rewrite Hsess.
    apply lookup_insert_eq. }
  exists (next_token example_world),
         (new_session example_world "alice" 3600000000%Z).
  split; [exact Hin|].
  exact (proj1 sessions_fixed_at_creation _ _ _ _ Hin).
Defined.

(** * Further properties *)

(** ** The form of a verification code *)

Lemma digit_char_value (d : N) :
  (d < 10)%N → N_of_ascii (digit_char d) = (48 + d)%N.
Proof.
  intros Hd. unfold digit_char. apply N_ascii_embedding. lia.
Qed.

Lemma digit_char_is_digit (n : N) : is_digit (digit_char (n `mod` 10)).
Proof.
  assert (Hd : (n `mod` 10 < 10)%N) by (apply N.mod_lt; lia).
  unfold is_digit. rewrite digit_char_value by exact Hd.
  generalize dependent (n `mod` 10)%N. intros d Hd. lia.
Qed.

Lemma digit_step (n : N) :
  (10 * (n / 10) + (N_of_ascii (digit_char (n `mod` 10)) - 48))%N = n.
Proof.
  assert (Hd : (n `mod` 10 < 10)%N) by (apply N.mod_lt; lia).
  rewrite digit_char_value by exact Hd.
  pose proof (N.div_mod n 10 ltac:(lia)) as Hdm.
  set (q := (n / 10)%N) in *. set (r := (n `mod` 10)%N) in *.
  clearbody q r. lia.
Qed.

Lemma div10_lt_pow2 (n : N) (fuel : nat) :
  (n < 2 ^ N.of_nat (S fuel))%N → (n / 10 < 2 ^ N.of_nat fuel)%N.
Proof.
  intros Hn. rewrite Nat2N.inj_succ, N.pow_succ_r' in Hn.
  apply N.Div0.div_lt_upper_bound.
  set (p := (2 ^ N.of_nat fuel)%N) in *. clearbody p. lia.
Qed.

Lemma digits_of_spec (fuel : nat) (n : N) (acc : list ascii) :
  (n < 2 ^ N.of_nat fuel)%N →
  Forall is_digit acc →
  Forall is_digit (digits_of fuel n acc) ∧
  fold_left (λ a c, 10 * a + (N_of_ascii c - 48))%N (digits_of fuel n acc) 0%N =
    fold_left (λ a c, 10 * a + (N_of_ascii c - 48))%N acc n.
Proof.
  revert n acc. induction fuel as [|fuel IH]; intros n acc Hn Hacc.
  - simpl in *. assert (n = 0%N) as -> by lia.
    split; [exact Hacc|]. reflexivity.
  - cbn [digits_of].
    assert (Hacc' : Forall is_digit (digit_char (n `mod` 10) :: acc)).
    { constructor; [apply digit_char_is_digit | exact Hacc]. }
    destruct (N.eqb_spec (n / 10) 0%N) as [Hq|Hq].
    + split; [exact Hacc'|]. cbn [fold_left].
      f_equal. rewrite <- (digit_step n) at 2. by rewrite Hq.
    + destruct (IH (n / 10)%N (digit_char (n `mod` 10) :: acc)) as [Hall Hval];
        [by apply div10_lt_pow2 | exact Hacc' |].
      split; [exact Hall|]. rewrite Hval. cbn [fold_left].
      f_equal. apply digit_step.
Qed.

Lemma div10_lt_pow10 (n : N) (k : nat) :
  (n < 10 ^ N.of_nat (S k))%N → (n / 10 < 10 ^ N.of_nat k)%N.
Proof.
  intros Hn. rewrite Nat2N.inj_succ, N.pow_succ_r' in Hn.
  apply N.Div0.div_lt_upper_bound.
  set (p := (10 ^ N.of_nat k)%N) in *. clearbody p. lia.
Qed.

Lemma digits_of_length (fuel : nat) (n : N) (k : nat) (acc : list ascii) :
  (n < 10 ^ N.of_nat (S k))%N →
  (length (digits_of (S fuel) n acc) ≤ S k + length acc)%nat.
Proof.
  revert n k acc. induction fuel as [|fuel IH]; intros n k acc Hn.
  - cbn [digits_of]. destruct (n / 10 =? 0)%N; simpl; lia.
  - change (digits_of (S (S fuel)) n acc) with
      (if (n / 10 =? 0)%N then digit_char (n `mod` 10) :: acc
       else digits_of (S fuel) (n / 10) (digit_char (n `mod` 10) :: acc)).
    destruct (N.eqb_spec (n / 10) 0%N) as [Hq|Hq]; [simpl; lia|].
    destruct k as [|k].
    + exfalso. apply Hq. apply N.div_small. exact Hn.
    + pose proof (IH (n / 10)%N k (digit_char (n `mod` 10) :: acc)
                    (div10_lt_pow10 n (S k) Hn)) as Hlen.
      cbn [length] in Hlen. lia.
Qed.

Lemma str_of_N_fuel (n : N) : (n < 2 ^ N.of_nat (S (N.to_nat (N.log2 n))))%N.
Proof.
  rewrite Nat2N.inj_succ, N2Nat.id.
  destruct (N.eq_dec n 0%N) as [->|Hn]; [reflexivity|].
  apply N.log2_spec. lia.
Qed.

Lemma fold_digits_zeros (k : nat) (s : list ascii) :
  int_of_digits (repeat "0"%char k ++ s) = int_of_digits s.
Proof.
  unfold int_of_digits. rewrite fold_left_app. f_equal.
  induction k as [|k IH]; [reflexivity|]. simpl. exact IH.
Qed.

Lemma zfill_digits (width : nat) (s : list ascii) :
  Forall is_digit s →
  zfill width s = repeat "0"%char (width - length s) ++ s.
Proof.
  intros Hs. unfold zfill. destruct s as [|c rest]; [by rewrite app_nil_r|].
  apply Forall_cons_1 in Hs as [Hc _]. unfold is_digit in Hc.
  destruct (Ascii.eqb_spec c "+") as [->|_]; [simpl in Hc; lia|].
  destruct (Ascii.eqb_spec c "-") as [->|_]; [simpl in Hc; lia|].
  reflexivity.
Qed.

Lemma string_of_list_ascii_length (l : list ascii) :
  String.length (string_of_list_ascii l) = length l.
Proof. induction l as [|c l IH]; simpl; congruence. Qed.

(** X1: the code is always six decimal digits, and reading it back as a
    number gives the number that was drawn; so different draws give
    different codes. *)
Theorem generate_2fa_code_six_digits (drawn : N) :
  (drawn < 1000000)%N →
  String.length (generate_2fa_code drawn) = 6 ∧
  Forall is_digit (list_ascii_of_string (generate_2fa_code drawn)) ∧
  int_of_digits (list_ascii_of_string (generate_2fa_code drawn)) = drawn ∧
  ∀ other, (other < 1000000)%N →
    generate_2fa_code other = generate_2fa_code drawn → other = drawn.
Proof.
  assert (Hcode : ∀ n, (n < 1000000)%N →
    String.length (generate_2fa_code n) = 6 ∧
    Forall is_digit (list_ascii_of_string (generate_2fa_code n)) ∧
    int_of_digits (list_ascii_of_string (generate_2fa_code n)) = n).
  { intros n Hn. unfold generate_2fa_code.
    rewrite list_ascii_of_string_of_list_ascii.
    destruct (digits_of_spec (S (N.to_nat (N.log2 n))) n [])
      as [Hall Hval]; [apply str_of_N_fuel | constructor |].
    fold (str_of_N n) in Hall, Hval.
    assert (Hlen : (length (str_of_N n) ≤ 6)%nat).
    { pose proof (digits_of_length (N.to_nat (N.log2 n)) n 5 []) as Hl.
      simpl length in Hl. apply Hl. exact Hn. }
    rewrite zfill_digits by exact Hall.
    split; [|split].
    - rewrite string_of_list_ascii_length, length_app, repeat_length. lia.
    - apply Forall_app. split; [|exact Hall].
      apply Forall_forall. intros c Hc%list_elem_of_In%repeat_spec. subst c.
      unfold is_digit. simpl. lia.
    - rewrite fold_digits_zeros. exact Hval. }
  intros Hdrawn. destruct (Hcode drawn Hdrawn) as (Hlen & Hall & Hval).
  split; [exact Hlen|]. split; [exact Hall|]. split; [exact Hval|].
  intros other Hother Heq.
  destruct (Hcode other Hother) as (_ & _ & Hval').
  rewrite Heq, Hval in Hval'. by symmetry.
Qed.

Lemma generate_2fa_code_six_digits_witness :
  generate_2fa_code 4217 = "004217" ∧
  String.length (generate_2fa_code 4217) = 6 ∧
  int_of_digits (list_ascii_of_string (generate_2fa_code 4217)) = 4217%N.
Proof.
  split; [reflexivity|].
  destruct (generate_2fa_code_six_digits 4217) as (Hlen & _ & Hval & _);
    [reflexivity|].
  by split.
Defined.

(** ** The form of a session token *)

Lemma list_ind3 {A : Type} (P : list A → Prop) :
  P [] → (∀ a, P [a]) → (∀ a b, P [a; b]) →
  (∀ a b c l, P l → P (a :: b :: c :: l)) →
  ∀ l, P l.
Proof.
  intros H0 H1 H2 H3 l.
  assert (Hall : ∀ n l, (length l ≤ n)%nat → P l).
  { clear l. induction n as [|n IH]; intros l Hl.
    - destruct l; [exact H0 | simpl in Hl; lia].
    - destruct l as [|a [|b [|c l]]]; auto.
      apply H3, IH. simpl in Hl. lia. }
  exact (Hall (length l) l (le_n _)).
Qed.

Lemma b64_char_in_alphabet (i : N) : In (b64_char i) b64_alphabet.
Proof.
  unfold b64_char. generalize (N.to_nat (N.land i 63)). intros n.
  destruct (Nat.lt_ge_cases n (length b64_alphabet)) as [Hlt|Hge].
  - by apply nth_In.
  - rewrite nth_overflow by exact Hge. left. reflexivity.
Qed.

Lemma lstrip_repeat (c : ascii) (k : nat) (l : list ascii) :
  lstrip c (repeat c k ++ l) = lstrip c l.
Proof.
  induction k as [|k IH]; [reflexivity|]. simpl. by rewrite Ascii.eqb_refl.
Qed.

Lemma lstrip_none (c : ascii) (l : list ascii) :
  Forall (λ x, x ≠ c) l → lstrip c l = l.
Proof.
  intros [|x l' Hx _]; [reflexivity|]. simpl.
  by destruct (Ascii.eqb_spec x c).
Qed.

(** Stripping removes the padding and nothing else. *)
Lemma rstrip_padding (c : ascii) (body : list ascii) (k : nat) :
  Forall (λ x, x ≠ c) body → rstrip c (body ++ repeat c k) = body.
Proof.
  intros Hbody. unfold rstrip.
  rewrite rev_app_distr, rev_repeat, lstrip_repeat.
  rewrite lstrip_none; [apply rev_involutive|].
  by apply Forall_rev.
Qed.

Lemma urlsafe_b64encode_shape (bs : list byte) :
  ∃ body k,
    urlsafe_b64encode bs = body ++ repeat b64_pad k ∧
    Forall (λ c, In c b64_alphabet) body ∧
    length body = ((4 * length bs + 2) / 3)%nat.
Proof.
  induction bs as [|a|a b|a b c l (body & k & Henc & Hall & Hlen)]
    using list_ind3.
  - exists [], 0. by repeat split.
  - eexists [_; _], 2. split; [reflexivity|]. split; [|reflexivity].
    repeat (apply Forall_cons_2; [apply b64_char_in_alphabet|]). apply Forall_nil_2.
  - eexists [_; _; _], 1. split; [reflexivity|]. split; [|reflexivity].
    repeat (apply Forall_cons_2; [apply b64_char_in_alphabet|]). apply Forall_nil_2.
  - eexists (_ :: _ :: _ :: _ :: body), k.
    split; [cbn [urlsafe_b64encode]; rewrite Henc; reflexivity|].
    split; [repeat (apply Forall_cons_2; [apply b64_char_in_alphabet|]); exact Hall|].
    cbn [length]. rewrite Hlen.
    replace (4 * S (S (S (length l))) + 2)%nat
      with (4 * 3 + (4 * length l + 2))%nat by lia.
    rewrite Nat.div_add_l by lia. lia.
Qed.

Lemma alphabet_not_pad (c : ascii) : In c b64_alphabet → c ≠ b64_pad.
Proof.
  intros Hin ->. revert Hin. unfold b64_alphabet, b64_pad. simpl.
  intros H. repeat (destruct H as [H|H]; [discriminate H|]). exact H.
Qed.

(** X2: [token_urlsafe(n)] always returns, and the token has exactly
    [ceil(4n/3)] characters, all of them letters, digits, [-] or [_] (no
    padding is left); it takes [n] bytes from the random source and
    touches nothing else.  A session token has 43 characters. *)
Theorem token_urlsafe_shape (nbytes : nat) (w : World) :
  ∃ token w',
    token_urlsafe nbytes w = (Ret token, w') ∧
    String.length token = ((4 * nbytes + 2) / 3)%nat ∧
    Forall (λ c, In c b64_alphabet) (list_ascii_of_string token) ∧
    self w' = self w ∧
    urandom_reads (env w') = (urandom_reads (env w) + nbytes)%nat ∧
    (nbytes = 32 → String.length token = 43).
Proof.
  destruct (urlsafe_b64encode_shape
              (map (urandom (env w)) (seq (urandom_reads (env w)) nbytes)))
    as (body & k & Henc & Hall & Hlen).
  rewrite length_map, length_seq in Hlen.
  assert (Htok : rstrip b64_pad
            (urlsafe_b64encode
               (map (urandom (env w)) (seq (urandom_reads (env w)) nbytes)))
          = body).
  { rewrite Henc. apply rstrip_padding.
    eapply Forall_impl; [exact Hall|]. apply alphabet_not_pad. }
  eexists _, _. split; [reflexivity|]. cbn [fst snd self env urandom_reads].
  rewrite Htok, string_of_list_ascii_length, list_ascii_of_string_of_list_ascii.
  repeat split; try done. intros ->. rewrite Hlen. reflexivity.
Qed.

Lemma token_urlsafe_shape_witness :
  ∃ token w',
    generate_session_token example_world = (Ret token, w') ∧
    String.length token = 43.
Proof.
  destruct (token_urlsafe_shape 32 example_world)
    as (token & w' & Hrun & _ & _ & _ & _ & H43).
  exists token, w'. split; [exact Hrun | exact (H43 eq_refl)].
Defined.

(** ** The audit log only grows *)

Lemma exec_logs (c : call) (w : World) :
  logs_of (exec c w) = logs_of w ∨
  ∃ entry, logs_of (exec c w) = logs_of w ++ [entry].
Proof.
  destruct c as [u p code|token resource|resources| |]; simpl; unfold world_after.
  - destruct (gate_cases (self w) code) as [Hgate|[H2fa ->]].
    + destruct (timedelta_seconds (session_timeout (self w))) as [ttl|e] eqn:Httl.
      * destruct (authenticate_user_success w u p code ttl Hgate Httl)
          as (r & w' & -> & _ & _ & _ & _ & _ & _ & Hlogs & _).
        right. eauto.
      * destruct (authenticate_user_type_error w u p code e Hgate Httl)
          as (w' & -> & Hself & _).
        left. unfold logs_of. simpl. by rewrite Hself.
    + rewrite authenticate_user_2fa_required by exact H2fa. by left.
  - destruct (sessions_of w !! token) as [session|] eqn:Hlook.
    + destruct (decide (Session.expires_at session < reading w 1)%Z)
        as [Hexp|Hlive].
      * destruct (secure_online_access_expired w token resource session
                    Hlook Hexp) as (w' & -> & _ & Hlogs & _).
        by left.
      * destruct (secure_online_access_granted w token resource session
                    Hlook Hlive) as (r & w' & -> & _ & _ & Hlogs).
        right. eauto.
    + rewrite secure_online_access_unknown by exact Hlook. by left.
  - left. reflexivity.
  - left. by destruct w.
  - destruct (cleanup_expired_sessions_run w) as (w' & -> & _ & Hlogs & _).
    by left.
Qed.

(** X3: the audit log is append-only.  A call adds at most one entry at
    the end and changes none of the entries already there; after any
    sequence of calls the old log is a prefix of the new one, which is
    longer by at most the number of calls. *)
Theorem audit_log_append_only (cs : list call) (w : World) :
  (∀ c, logs_of (exec c w) = logs_of w ∨
        ∃ entry, logs_of (exec c w) = logs_of w ++ [entry]) ∧
  (∃ added, logs_of (exec_all cs w) = logs_of w ++ added ∧
            (length added ≤ length cs)%nat).
Proof.
  split; [intros c; apply exec_logs|].
  revert w. induction cs as [|c cs IH]; intros w.
  - exists []. by rewrite app_nil_r.
  - change (exec_all (c :: cs) w) with (exec_all cs (exec c w)).
    destruct (IH (exec c w)) as (added & -> & Hlen).
    destruct (exec_logs c w) as [->|[entry ->]].
    + exists added. split; [done | simpl; lia].
    + exists (entry :: added). rewrite <- app_assoc.
      split; [done | simpl; lia].
Qed.

(** ** The decision of [secure_online_access] *)

(** Every way [secure_online_access] can end. *)
Lemma secure_online_access_outcome (w : World) (token resource : string) :
  ∃ r w',
    secure_online_access token resource w = (Ret r, w') ∧
    AccessResult.resource r = resource ∧
    (AccessResult.access_granted r = true ↔
     ∃ session, sessions_of w !! token = Some session ∧
                (reading w 1 ≤ Session.expires_at session)%Z) ∧
    (∀ session,
       sessions_of w !! token = Some session →
       (reading w 1 ≤ Session.expires_at session)%Z →
       AccessResult.reason r = None ∧
       AccessResult.username r = Some (Session.username session) ∧
       AccessResult.access_level r = Some (Session.access_level session)) ∧
    (AccessResult.access_granted r = false →
     (AccessResult.reason r = Some "Invalid session token" ∨
      AccessResult.reason r = Some "Session expired") ∧
     AccessResult.username r = None ∧ AccessResult.access_level r = None).
Proof.
  destruct (sessions_of w !! token) as [session|] eqn:Hlook.
  - destruct (decide (Session.expires_at session < reading w 1)%Z)
      as [Hexp|Hlive].
    + destruct (secure_online_access_expired w token resource session
                  Hlook Hexp) as (w' & -> & _).
      eexists _, _. split; [reflexivity|]. simpl. split; [done|].
      split; [split; [done|]|split].
      * intros (s & [= <-] & Hle). lia.
      * intros s [= <-] Hle. lia.
      * intros _. split; [by right | done].
    + destruct (secure_online_access_granted w token resource session
                  Hlook Hlive) as (r & w' & -> & -> & _).
      eexists _, _. split; [reflexivity|]. simpl. split; [done|].
      split; [split|split].
      * intros _. exists session. split; [done | lia].
      * done.
      * by intros s [= <-] _.
      * done.
  - rewrite secure_online_access_unknown by exact Hlook.
    eexists _, _. split; [reflexivity|]. simpl. split; [done|].
    split; [split; [done|]|split].
    + by intros (s & [=] & _).
    + by intros s [=].
    + intros _. split; [by left | done].
Qed.


(** X4: access is granted exactly when the token is in the store and
    the clock reading taken at the check is not later than the session's
    [expires_at]; a reading equal to [expires_at] is still granted.  The
    decision then carries the session's username and access level and no
    reason; a refusal carries one of the two reasons and neither field. *)
Theorem secure_online_access_decision (w : World) (token resource : string) :
  ∃ r w',
    secure_online_access token resource w = (Ret r, w') ∧
    AccessResult.resource r = resource ∧
    (AccessResult.access_granted r = true ↔
     ∃ session, sessions_of w !! token = Some session ∧
                (reading w 1 ≤ Session.expires_at session)%Z) ∧
    (∀ session,
       sessions_of w !! token = Some session →
       (reading w 1 ≤ Session.expires_at session)%Z →
       AccessResult.reason r = None ∧
       AccessResult.username r = Some (Session.username session) ∧
       AccessResult.access_level r = Some (Session.access_level session)) ∧
    (AccessResult.access_granted r = false →
     (AccessResult.reason r = Some "Invalid session token" ∨
      AccessResult.reason r = Some "Session expired") ∧
     AccessResult.username r = None ∧ AccessResult.access_level r = None).
Proof. apply secure_online_access_outcome. Qed.

Lemma secure_online_access_decision_witness :
  ∃ r w',
    secure_online_access "fresh-token" "email_system" stale_world = (Ret r, w') ∧
    AccessResult.access_granted r = true ∧
    AccessResult.username r = Some "bob".
Proof.
  destruct (secure_online_access_decision stale_world "fresh-token" "email_system")
    as (r & w' & Hrun & _ & Hiff & Hfields & _).
  exists r, w'. split; [exact Hrun|]. split.
  - apply Hiff. exists (Session.mk "bob" 4000000 3604000000 "user").
    split; [reflexivity|]. vm_compute. discriminate.
  - apply (Hfields (Session.mk "bob" 4000000 3604000000 "user"));
      [reflexivity|]. vm_compute. discriminate.
Defined.

(** X5: a call to [secure_online_access] touches no session but the one
    under the token presented: every other token keeps its session, even
    one that has expired. *)
Theorem secure_online_access_other_tokens (w : World)
    (token resource other : string) :
  other ≠ token →
  sessions_of (exec (SecureOnlineAccess token resource) w) !! other
    = sessions_of w !! other.
Proof.
  intros Hne. simpl.
  destruct (secure_online_access_cases w token resource) as [[->| ->] _];
    [done|].
  by apply lookup_delete_ne.
Qed.

Lemma secure_online_access_other_tokens_witness :
  sessions_of (exec (SecureOnlineAccess "fresh-token" "email_system") stale_world)
    !! "stale-token"
  = Some (Session.mk "alice" 0 1000000 "user").
Proof.
  rewrite (secure_online_access_other_tokens stale_world "fresh-token"
             "email_system" "stale-token"); [reflexivity | discriminate].
Defined.

(** ** Logging in and using the token *)






(** ** Sweeping and then using a token *)

(** X8: after a sweep, a token whose session had expired by the sweep's
    reading is refused as an unknown token, no longer as an expired one;
    a session that had not expired is still stored, unchanged, and the
    token is accepted if it has not expired by the time of the check. *)
Theorem sweep_then_access (w : World) (token resource : string)
    (session : Session.t) :
  sessions_of w !! token = Some session →
  ∃ n w1 a w2,
    cleanup_expired_sessions w = (Ret n, w1) ∧
    secure_online_access token resource w1 = (Ret a, w2) ∧
    ((Session.expires_at session < reading w 0)%Z →
     sessions_of w1 !! token = None ∧
     AccessResult.access_granted a = false ∧
     AccessResult.reason a = Some "Invalid session token") ∧
    ((reading w 0 ≤ Session.expires_at session)%Z →
     sessions_of w1 !! token = Some session ∧
     (AccessResult.access_granted a = true ↔
      (reading w 2 ≤ Session.expires_at session)%Z)).
Proof.
  intros Hlook.
  destruct (cleanup_expired_sessions_run w)
    as (w1 & Hrun & Hsess & _ & Hclock & Hreads).
  assert (Hnext : ∀ n, reading w1 n = reading w (S n)).
  { intros n. unfold reading. rewrite Hclock, Hreads. f_equal. lia. }
  destruct (secure_online_access_outcome w1 token resource)
    as (a & w2 & Hrun2 & _ & Hiff & _ & Hrefused).
  eexists _, w1, a, w2. split; [exact Hrun|]. split; [exact Hrun2|].
  split.
  - intros Hexp.
    assert (Hgone : sessions_of w1 !! token = None).
    { rewrite Hsess. apply map_lookup_filter_None. right.
      intros s Hs. rewrite Hlook in Hs. injection Hs as <-.
      intros Hn. by apply Hn. }
    split; [exact Hgone|].
    rewrite (secure_online_access_unknown w1 token resource Hgone) in Hrun2.
    injection Hrun2 as <- _. by split.
  - intros Hlive.
    assert (Hkept : sessions_of w1 !! token = Some session).
    { rewrite Hsess. apply map_lookup_filter_Some. split; [exact Hlook|].
      unfold expired. simpl. lia. }
    split; [exact Hkept|]. rewrite Hiff, Hnext. split.
    + intros (s & Hs & Hle). rewrite Hkept in Hs. by injection Hs as <-.
    + intros Hle. by exists session.
Qed.

Lemma sweep_then_access_witness :
  ∃ n w1 a w2,
    cleanup_expired_sessions stale_world = (Ret n, w1) ∧
    secure_online_access "stale-token" "email_system" w1 = (Ret a, w2) ∧
    AccessResult.reason a = Some "Invalid session token".
Proof.
  destruct (sweep_then_access stale_world "stale-token" "email_system"
              (Session.mk "alice" 0 1000000 "user"))
    as (n & w1 & a & w2 & Hrun & Hrun2 & Hswept & _); [reflexivity|].
  exists n, w1, a, w2. split; [exact Hrun|]. split; [exact Hrun2|].
  apply Hswept. reflexivity.
Defined.

(** * email_handler.py *)

Ltac unfold_h :=
  unfold mbind, EmailHandler.M_bind, mret, EmailHandler.M_ret,
    EmailHandler.get_self, EmailHandler.put_self, EmailHandler.get_lower,
    EmailHandler.datetime_now; cbn.

(** ** [categorize_email] *)

Lemma categorize_email_cases (lower : string → string) (email : Email.t) :
  EmailHandler.categorize_email lower email ∈ default_categories.
Proof.
  unfold EmailHandler.categorize_email, default_categories.
  repeat (case_match; [repeat first [by left | right]|]).
  repeat first [by left | right].
Qed.

(** ** [process_emails] *)

Lemma process_one_run (i : nat) (email : Email.t) (w : EmailHandler.World) :
  ∃ p w',
    EmailHandler.process_one i email w = (p, w') ∧
    processed_from w i email (handler_reading w 0) p ∧
    EmailHandler.processed_emails (EmailHandler.handler w')
      = EmailHandler.processed_emails (EmailHandler.handler w) ++ [p] ∧
    same_handler_setting w w' ∧
    clock_reads (EmailHandler.env w') = S (clock_reads (EmailHandler.env w)).
Proof.
  unfold EmailHandler.process_one. unfold_h.
  eexists _, _. split; [reflexivity|].
  split; [|by repeat split].
  unfold processed_from, wants_response.
  destruct (EmailHandler.auto_response (EmailHandler.handler w) &&
            (String.eqb (EmailHandler.categorize_email
                           (EmailHandler.str_lower w) email) "urgent"
             || String.eqb (EmailHandler.categorize_email
                              (EmailHandler.str_lower w) email)
                  "important")) eqn:Hwants;
    cbn; rewrite ?Hwants; by repeat split.
Qed.

Lemma same_handler_setting_trans (w1 w2 w3 : EmailHandler.World) :
  same_handler_setting w1 w2 → same_handler_setting w2 w3 →
  same_handler_setting w1 w3.
Proof.
  unfold same_handler_setting.
  intros (? & ? & ? & ? & ?) (? & ? & ? & ? & ?). repeat split; congruence.
Qed.

Lemma processed_from_same_setting (w w' : EmailHandler.World) (i : nat)
    (email : Email.t) (now : Z) (p : Processed.t) :
  same_handler_setting w w' →
  processed_from w' i email now p → processed_from w i email now p.
Proof.
  unfold same_handler_setting, processed_from, wants_response.
  intros (_ & _ & Hauto & Hlower & _). by rewrite Hauto, Hlower.
Qed.

(** The loop makes one record per email, in order, and appends each to
    [processed_emails]. *)
Lemma process_loop_run (emails : list Email.t) (i : nat)
    (results : list Processed.t) (w : EmailHandler.World) :
  ∃ new w',
    EmailHandler.process_loop i emails results w = (results ++ new, w') ∧
    length new = length emails ∧
    EmailHandler.processed_emails (EmailHandler.handler w')
      = EmailHandler.processed_emails (EmailHandler.handler w) ++ new ∧
    same_handler_setting w w' ∧
    clock_reads (EmailHandler.env w')
      = (length emails + clock_reads (EmailHandler.env w))%nat ∧
    ∀ j email,
      emails !! j = Some email →
      ∃ p, new !! j = Some p ∧
           processed_from w (i + j) email (handler_reading w j) p.
Proof.
  revert i results w. induction emails as [|email rest IH]; intros i results w.
  - exists [], w. rewrite !app_nil_r.
    split; [reflexivity|]. split; [reflexivity|]. split; [reflexivity|].
    split; [by unfold same_handler_setting|]. split; [reflexivity|].
    intros j e Hj. by rewrite lookup_nil in Hj.
  - cbn [EmailHandler.process_loop].
    unfold mbind at 1, EmailHandler.M_bind at 1.
    destruct (process_one_run i email w)
      as (p & w1 & -> & Hp & Hlog1 & Hsame1 & Hreads1).
    destruct (IH (S i) (results ++ [p]) w1)
      as (new & w' & -> & Hlen & Hlog & Hsame & Hreads & Hnew).
    exists (p :: new), w'. rewrite <- app_assoc.
    split; [reflexivity|]. split; [simpl; by rewrite Hlen|].
    split; [by rewrite Hlog, Hlog1, <- app_assoc|].
    split; [by eapply same_handler_setting_trans|].
    split; [rewrite Hreads, Hreads1; simpl; lia|].
    intros [|j] e Hj; simpl in Hj.
    + injection Hj as <-. exists p. split; [reflexivity|].
      by rewrite Nat.add_0_r.
    + destruct (Hnew j e Hj) as (q & Hq & Hfrom).
      exists q. split; [exact Hq|].
      apply (processed_from_same_setting w w1) in Hfrom; [|exact Hsame1].
      replace (i + S j)%nat with (S i + j)%nat by lia.
      replace (handler_reading w (S j)) with (handler_reading w1 j);
        [exact Hfrom|].
      unfold handler_reading. destruct Hsame1 as (_ & _ & _ & _ & ->).
      rewrite Hreads1. f_equal. lia.
Qed.

Lemma process_emails_run (emails : list Email.t) (w : EmailHandler.World) :
  ∃ results w',
    EmailHandler.process_emails emails w = (results, w') ∧
    length results = length (kept_emails (EmailHandler.handler w) emails) ∧
    EmailHandler.processed_emails (EmailHandler.handler w')
      = EmailHandler.processed_emails (EmailHandler.handler w) ++ results ∧
    same_handler_setting w w' ∧
    clock_reads (EmailHandler.env w')
      = (length results + clock_reads (EmailHandler.env w))%nat ∧
    ∀ j email,
      kept_emails (EmailHandler.handler w) emails !! j = Some email →
      ∃ p, results !! j = Some p ∧
           processed_from w j email (handler_reading w j) p.
Proof.
  unfold EmailHandler.process_emails. unfold_h.
  fold (kept_emails (EmailHandler.handler w) emails).
  destruct (process_loop_run (kept_emails (EmailHandler.handler w) emails)
              0 [] w) as (new & w' & Hrun & Hlen & Hlog & Hsame & Hreads & Hnew).
  exists new, w'. split; [exact Hrun|]. split; [exact Hlen|].
  split; [exact Hlog|]. split; [exact Hsame|].
  split; [by rewrite Hlen|]. exact Hnew.
Qed.



(** X10: the record for the email at position [j] (from 0) takes the
    email's own id, subject and sender, or ['email_<j+1>'],
    ['No Subject'] and ['Unknown'] where the key is missing; its category
    is the one [categorize_email] gives, its status ['processed'], its
    time the [j]-th clock reading of the call; and it carries the response
    text and [auto_response_sent = True] exactly when [auto_response] is
    on and the category is ['urgent'] or ['important']. *)
Theorem process_emails_records (emails : list Email.t) (w : EmailHandler.World)
    (j : nat) (email : Email.t) :
  kept_emails (EmailHandler.handler w) emails !! j = Some email →
  ∃ p,
    (EmailHandler.process_emails emails w).1 !! j = Some p ∧
    processed_from w j email (handler_reading w j) p ∧
    (is_Some (Processed.response p) ↔
     EmailHandler.auto_response (EmailHandler.handler w) = true ∧
     (Processed.category p = "urgent" ∨ Processed.category p = "important")).
Proof.
  intros Hj.
  destruct (process_emails_run emails w)
    as (results & w' & Hrun & _ & _ & _ & _ & Hnew).
  rewrite Hrun. destruct (Hnew j email Hj) as (p & Hp & Hfrom).
  exists p. split; [exact Hp|]. split; [exact Hfrom|].
  destruct Hfrom as (_ & _ & _ & _ & _ & _ & _ & ->).
  unfold wants_response.
  destruct (EmailHandler.auto_response (EmailHandler.handler w)); simpl.
  - destruct (String.eqb_spec (Processed.category p) "urgent") as [->|Hu];
      simpl; [split; [by auto | by eexists]|].
    destruct (String.eqb_spec (Processed.category p) "important") as [->|Hi].
    + split; [by auto | by eexists].
    + split; [by intros [? [=]] | by intros [_ [?|?]]].
  - split; [by intros [? [=]] | by intros [[=] _]].
Qed.

Lemma process_emails_records_witness :
  ∃ p,
    (EmailHandler.process_emails example_inbox example_handler_world).1 !! 2
      = Some p ∧
    Processed.id p = "email_3" ∧
    Processed.subject p = "No Subject" ∧
    Processed.category p = "low_priority" ∧
    Processed.response p = None.
Proof.
  destruct (process_emails_records example_inbox example_handler_world 2
              (Email.mk None None (Some "nobody@example.com") None None))
    as (p & Hp & (Hid & Hsubject & _ & Hcat & _ & _ & _ & Hresp) & _);
    [reflexivity|].
  exists p. split; [exact Hp|]. split; [exact Hid|]. split; [exact Hsubject|].
  split; [exact Hcat|]. rewrite Hresp, Hcat. reflexivity.
Defined.

(** X11: when lower-casing the empty text gives the empty text, an
    email without a subject is never answered; so a response always
    quotes the subject of the email it answers, the same one the record
    shows, and the stand-in ['your message'] is never used. *)
Theorem auto_response_quotes_subject (emails : list Email.t)
    (w : EmailHandler.World) (j : nat) (email : Email.t) (p : Processed.t)
    (text : string) :
  EmailHandler.str_lower w "" = "" →
  kept_emails (EmailHandler.handler w) emails !! j = Some email →
  (EmailHandler.process_emails emails w).1 !! j = Some p →
  Processed.response p = Some text →
  ∃ s,
    Email.subject email = Some s ∧
    Processed.subject p = s ∧
    text = String.append "Thank you for your email regarding '"
             (String.append s
                "'. We have received it and will respond shortly.").
Proof.
  intros Hlower Hj Hp Htext.
  destruct (process_emails_run emails w)
    as (results & w' & Hrun & _ & _ & _ & _ & Hnew).
  rewrite Hrun in Hp. destruct (Hnew j email Hj) as (q & Hq & Hfrom).
  simpl in Hp. rewrite Hp in Hq. injection Hq as <-.
  destruct Hfrom as (_ & Hsubject & _ & Hcat & _ & _ & _ & Hresp).
  destruct (Email.subject email) as [s|] eqn:Hs.
  - exists s. split; [reflexivity|]. split; [exact Hsubject|].
    rewrite Hresp in Htext.
    destruct (wants_response _ _); [|discriminate Htext].
    injection Htext as <-. unfold EmailHandler._generate_auto_response.
    by rewrite Hs.
  - exfalso. rewrite Hresp in Htext.
    assert (Hlow : Processed.category p = "low_priority").
    { rewrite Hcat. unfold EmailHandler.categorize_email.
      rewrite Hs. simpl default. rewrite Hlower. reflexivity. }
    rewrite Hlow in Htext. unfold wants_response in Htext.
    rewrite andb_false_r in Htext. discriminate Htext.
Qed.

Lemma auto_response_quotes_subject_witness :
  ∃ p,
    (EmailHandler.process_emails example_inbox example_handler_world).1 !! 0
      = Some p ∧
    Processed.response p
      = Some "Thank you for your email regarding 'URGENT: server down'. We have received it and will respond shortly." ∧
    Processed.subject p = "URGENT: server down".
Proof.
  destruct (process_emails_run example_inbox example_handler_world)
    as (results & w' & Hrun & _ & _ & _ & _ & Hnew).
  destruct (Hnew 0 _ eq_refl) as (p & Hp & Hfrom).
  assert (Hresp : Processed.response p
            = Some "Thank you for your email regarding 'URGENT: server down'. We have received it and will respond shortly.").
  { destruct Hfrom as (_ & _ & _ & Hcat & _ & _ & _ & ->).
    rewrite Hcat. reflexivity. }
  assert (Hp' : (EmailHandler.process_emails example_inbox
                   example_handler_world).1 !! 0 = Some p)
    by (rewrite Hrun; exact Hp).
  exists p. split; [exact Hp'|]. split; [exact Hresp|].
  destruct (auto_response_quotes_subject example_inbox example_handler_world
              0 _ p _ eq_refl eq_refl Hp' Hresp) as (s & Hs & Hsubject & _).
  injection Hs as <-. exact Hsubject.
Defined.

(** ** [get_statistics] *)

Lemma by_category_lookup (count : string → nat) (cats : list string)
    (m : gmap string nat) (c : string) :
  foldl (λ by_category category, <[category := count category]> by_category)
        m cats !! c
  = if decide (c ∈ cats) then Some (count c) else m !! c.
Proof.
  revert m. induction cats as [|cat cats IH]; intros m; simpl.
  - done.
  - rewrite IH. rewrite (decide_ext _ _ _ _ (elem_of_cons cats c cat)).
    destruct (decide (c ∈ cats)) as [Hin|Hnin].
    + by rewrite decide_True by (by right).
    + destruct (decide (c = cat)) as [->|Hne].
      * rewrite lookup_insert_eq. by rewrite decide_True by (by left).
      * rewrite lookup_insert_ne by done.
        by rewrite decide_False by (by intros [?|?]).
Qed.

Lemma count_by_default_categories (l : list Processed.t) :
  Forall (λ p, Processed.category p ∈ default_categories) l →
  length l =
    (length (filter (λ e, Processed.category e = "urgent") l) +
     length (filter (λ e, Processed.category e = "important") l) +
     length (filter (λ e, Processed.category e = "normal") l) +
     length (filter (λ e, Processed.category e = "low_priority") l))%nat.
Proof.
  induction 1 as [|p l Hp _ IH]; [reflexivity|].
  rewrite !filter_cons. unfold default_categories in Hp.
  assert (Hcases : Processed.category p = "urgent" ∨
                   Processed.category p = "important" ∨
                   Processed.category p = "normal" ∨
                   Processed.category p = "low_priority").
  { repeat (apply elem_of_cons in Hp as [Hp|Hp]; [by auto|]).
    by apply elem_of_nil in Hp. }
  destruct Hcases as [-> | [-> | [-> | ->]]];
    repeat case_decide; try done; simpl; lia.
Qed.

(** X12: [get_statistics] changes nothing; it reports the number of
    records kept, and for each configured category (and no other name)
    the number of records with that category.  [process_emails] only
    ever records one of the four built-in categories, so with the default
    category list the four counts add up to the total. *)
Theorem get_statistics_counts (w : EmailHandler.World) :
  ∃ st,
    EmailHandler.get_statistics w = (st, w) ∧
    Statistics.total_processed st
      = length (EmailHandler.processed_emails (EmailHandler.handler w)) ∧
    (∀ c,
       Statistics.by_category st !! c =
         if decide (c ∈ EmailHandler.categories (EmailHandler.handler w))
         then Some (length (filter (λ e, Processed.category e = c)
                              (EmailHandler.processed_emails
                                 (EmailHandler.handler w))))
         else None) ∧
    (∀ emails,
       Forall (λ p, Processed.category p ∈ default_categories)
         (EmailHandler.processed_emails (EmailHandler.handler w)) →
       Forall (λ p, Processed.category p ∈ default_categories)
         (EmailHandler.processed_emails
            (EmailHandler.handler (EmailHandler.process_emails emails w).2))) ∧
    (EmailHandler.categories (EmailHandler.handler w) = default_categories →
     Forall (λ p, Processed.category p ∈ default_categories)
       (EmailHandler.processed_emails (EmailHandler.handler w)) →
     Statistics.total_processed st =
       (default 0 (Statistics.by_category st !! "urgent") +
        default 0 (Statistics.by_category st !! "important") +
        default 0 (Statistics.by_category st !! "normal") +
        default 0 (Statistics.by_category st !! "low_priority"))%nat).
Proof.
  eexists. split; [by destruct w|]. cbn.
  split; [reflexivity|].
  assert (Hlook : ∀ c,
    foldl (λ by_category category,
             <[category :=
                 length (filter (λ e, Processed.category e = category)
                           (EmailHandler.processed_emails
                              (EmailHandler.handler w)))]> by_category)
          (∅ : gmap string nat)
          (EmailHandler.categories (EmailHandler.handler w)) !! c
    = if decide (c ∈ EmailHandler.categories (EmailHandler.handler w))
      then Some (length (filter (λ e, Processed.category e = c)
                           (EmailHandler.processed_emails
                              (EmailHandler.handler w))))
      else None).
  { intros c.
    rewrite (by_category_lookup
               (λ c, length (filter (λ e, Processed.category e = c)
                               (EmailHandler.processed_emails
                                  (EmailHandler.handler w))))).
    by rewrite lookup_empty. }
  split; [exact Hlook|]. split.
  - intros emails Hall.
    destruct (process_emails_run emails w)
      as (results & w' & Hrun & _ & Hlog & _ & _ & Hnew).
    rewrite Hrun. cbn [snd]. rewrite Hlog. apply Forall_app. split; [exact Hall|].
    apply Forall_lookup. intros j p Hp.
    assert (Hj : (j < length (kept_emails (EmailHandler.handler w) emails))%nat).
    { destruct (process_emails_run emails w)
        as (results2 & w2 & Hrun2 & Hlen2 & _).
      rewrite Hrun in Hrun2. injection Hrun2 as <- _.
      rewrite <- Hlen2. by eapply lookup_lt_Some. }
    destruct (lookup_lt_is_Some_2 _ _ Hj) as [email Hemail].
    destruct (Hnew j email Hemail) as (q & Hq & Hfrom).
    rewrite Hp in Hq. injection Hq as <-.
    destruct Hfrom as (_ & _ & _ & -> & _). apply categorize_email_cases.
  - intros Hcats Hall. rewrite !Hlook, Hcats.
    rewrite !decide_True
      by (unfold default_categories; repeat first [by left | right]).
    simpl. by apply count_by_default_categories.
Qed.

Lemma get_statistics_counts_witness :
  ∃ st,
    EmailHandler.get_statistics
      (EmailHandler.process_emails example_inbox example_handler_world).2
      = (st, (EmailHandler.process_emails example_inbox
                example_handler_world).2) ∧
    Statistics.total_processed st = 3 ∧
    Statistics.by_category st !! "urgent" = Some 1 ∧
    Statistics.by_category st !! "spam" = None.
Proof.
  destruct (get_statistics_counts
              (EmailHandler.process_emails example_inbox
                 example_handler_world).2)
    as (st & Hrun & Htotal & Hlook & _).
  exists st. split; [exact Hrun|].
  split; [rewrite Htotal; vm_compute; reflexivity|].
  split; rewrite Hlook; vm_compute; reflexivity.
Defined.

(** ** [open_emails] *)

Lemma open_loop_run (indices : list nat) (emails : list Email.t)
    (w : EmailHandler.World) :
  ∃ new w',
    EmailHandler.open_loop indices emails w = (emails ++ new, w') ∧
    length new = length indices ∧
    EmailHandler.handler w' = EmailHandler.handler w ∧
    EmailHandler.str_lower w' = EmailHandler.str_lower w ∧
    clock (EmailHandler.env w') = clock (EmailHandler.env w) ∧
    clock_reads (EmailHandler.env w')
      = (length indices + clock_reads (EmailHandler.env w))%nat ∧
    ∀ j i, indices !! j = Some i →
           new !! j = Some (simulated_email i (handler_reading w j)).
Proof.
  revert emails w. induction indices as [|i rest IH]; intros emails w.
  - exists [], w. rewrite app_nil_r. do 6 (split; [reflexivity|]).
    intros j i Hj. by rewrite lookup_nil in Hj.
  - cbn [EmailHandler.open_loop]. unfold EmailHandler.open_one. unfold_h.
    match goal with
    | |- context [EmailHandler.open_loop rest (emails ++ [?e]) ?w1] =>
        destruct (IH (emails ++ [e]) w1)
          as (new & w' & -> & Hlen & Hself & Hlower & Hclock & Hreads & Hnew);
        exists (e :: new), w'
    end.
    rewrite <- app_assoc. split; [reflexivity|].
    split; [simpl; by rewrite Hlen|]. split; [exact Hself|].
    split; [exact Hlower|]. split; [exact Hclock|].
    split; [rewrite Hreads; simpl; lia|].
    intros [|j] i' Hj; simpl in Hj.
    + injection Hj as <-. reflexivity.
    + simpl. rewrite (Hnew j i' Hj). do 2 f_equal.
      unfold handler_reading. cbn. f_equal. lia.
Qed.

Lemma open_emails_run (count : Z) (w : EmailHandler.World) :
  ∃ emails w',
    EmailHandler.open_emails count w = (emails, w') ∧
    length emails
      = Z.to_nat (Z.min count
                    (EmailHandler.max_emails (EmailHandler.handler w))) ∧
    EmailHandler.handler w' = EmailHandler.handler w ∧
    EmailHandler.str_lower w' = EmailHandler.str_lower w ∧
    (∀ j, (j < length emails)%nat →
          emails !! j = Some (simulated_email j (handler_reading w j))).
Proof.
  unfold EmailHandler.open_emails. unfold_h.
  destruct (open_loop_run
              (seq 0 (Z.to_nat (Z.min count
                 (EmailHandler.max_emails (EmailHandler.handler w))))) [] w)
    as (new & w' & Hrun & Hlen & Hself & Hlower & _ & _ & Hnew).
  rewrite length_seq in Hlen.
  exists new, w'. split; [exact Hrun|]. split; [exact Hlen|].
  split; [exact Hself|]. split; [exact Hlower|].
  intros j Hj. apply Hnew. rewrite Hlen in Hj. by apply lookup_seq.
Qed.

(** X13: [open_emails(count)] makes up [min(count, max_emails)] emails,
    none when that number is zero or negative, and leaves the handler as
    it was.  The email at position [j] (from 0) is numbered [j+1] in its
    id, subject, sender and content, and carries the [j]-th clock reading
    of the call. *)
Theorem open_emails_count (count : Z) (w : EmailHandler.World) :
  ∃ emails w',
    EmailHandler.open_emails count w = (emails, w') ∧
    length emails
      = Z.to_nat (Z.min count
                    (EmailHandler.max_emails (EmailHandler.handler w))) ∧
    EmailHandler.handler w' = EmailHandler.handler w ∧
    (∀ j, (j < length emails)%nat →
          emails !! j = Some (simulated_email j (handler_reading w j))) ∧
    ((count ≤ 0 ∨ EmailHandler.max_emails (EmailHandler.handler w) ≤ 0)%Z →
     emails = []).
Proof.
  destruct (open_emails_run count w)
    as (emails & w' & Hrun & Hlen & Hself & _ & Hnew).
  exists emails, w'. split; [exact Hrun|]. split; [exact Hlen|].
  split; [exact Hself|]. split; [exact Hnew|].
  intros Hle. apply nil_length_inv. rewrite Hlen. lia.
Qed.

Lemma open_emails_count_witness :
  ∃ emails w',
    EmailHandler.open_emails 70 example_handler_world = (emails, w') ∧
    length emails = 50 ∧
    emails !! 1
      = Some (Email.mk (Some "email_2") (Some "Email Subject 2")
                (Some "sender2@example.com")
                (Some "This is the content of email 2") (Some 1000%Z)).
Proof.
  destruct (open_emails_count 70 example_handler_world)
    as (emails & w' & Hrun & Hlen & _ & Hnew & _).
  exists emails, w'. split; [exact Hrun|].
  assert (Hlen' : length emails = 50) by (rewrite Hlen; reflexivity).
  split; [exact Hlen'|].
  rewrite (Hnew 1) by (rewrite Hlen'; lia). reflexivity.
Defined.

(** ** Simulated emails *)

Lemma is_digit_b_spec (c : ascii) : is_digit_b c = true ↔ is_digit c.
Proof.
  unfold is_digit_b, is_digit.
  rewrite andb_true_iff, N.leb_le, N.leb_le. done.
Qed.

Lemma str_of_nat_digits (n : nat) :
  Forall is_digit (list_ascii_of_string (str_of_nat n)).
Proof.
  unfold str_of_nat. rewrite list_ascii_of_string_of_list_ascii.
  apply (digits_of_spec (S (N.to_nat (N.log2 (N.of_nat n)))) (N.of_nat n) []);
    [apply str_of_N_fuel | constructor].
Qed.

Lemma prefix_empty (s : string) : String.prefix "" s = true.
Proof. by destruct s. Qed.

Lemma prefix_digits_suffix (kw p d : string) :
  forallb (λ c, negb (is_digit_b c)) (list_ascii_of_string kw) = true →
  Forall is_digit (list_ascii_of_string d) →
  String.prefix kw (String.append p d) = String.prefix kw p.
Proof.
  intros Hkw Hd. revert p. induction kw as [|c kw IH]; intros p;
    [by rewrite !prefix_empty|].
  simpl in Hkw. apply andb_true_iff in Hkw as [Hc Hkw].
  destruct p as [|y p].
  - change (String.append "" d) with d.
    destruct d as [|x d]; [reflexivity|]. cbn [String.prefix].
    destruct (ascii_dec c x) as [->|_]; [|reflexivity].
    simpl in Hd. apply Forall_cons_1 in Hd as [Hx _].
    apply is_digit_b_spec in Hx. by rewrite Hx in Hc.
  - change (String.append (String y p) d) with (String y (String.append p d)).
    cbn [String.prefix].
    destruct (ascii_dec c y); [by apply IH | reflexivity].
Qed.

Lemma is_substring_digits (kw d : string) :
  kw ≠ "" →
  forallb (λ c, negb (is_digit_b c)) (list_ascii_of_string kw) = true →
  Forall is_digit (list_ascii_of_string d) →
  is_substring kw d = false.
Proof.
  intros Hne Hkw. induction d as [|x d IH]; intros Hd.
  - destruct kw; [done | reflexivity].
  - cbn [is_substring]. simpl in Hd. apply Forall_cons_1 in Hd as [Hx Hd].
    rewrite (IH Hd), orb_false_r.
    destruct kw as [|c kw]; [done|]. cbn [String.prefix].
    destruct (ascii_dec c x) as [->|_]; [|reflexivity].
    simpl in Hkw. apply andb_true_iff in Hkw as [Hc _].
    apply is_digit_b_spec in Hx. by rewrite Hx in Hc.
Qed.

(** A keyword without digits is found in a text followed by digits only
    if it is found in the text. *)
Lemma is_substring_digits_suffix (kw p d : string) :
  kw ≠ "" →
  forallb (λ c, negb (is_digit_b c)) (list_ascii_of_string kw) = true →
  Forall is_digit (list_ascii_of_string d) →
  is_substring kw (String.append p d) = is_substring kw p.
Proof.
  intros Hne Hkw Hd. induction p as [|y p IH].
  - change (String.append "" d) with d. rewrite is_substring_digits by done.
    destruct kw; [done | reflexivity].
  - change (String.append (String y p) d) with (String y (String.append p d)).
    cbn [is_substring]. rewrite IH.
    by rewrite <- (prefix_digits_suffix kw (String y p) d Hkw Hd).
Qed.

Lemma ascii_lower_append (a b : string) :
  ascii_lower (String.append a b)
    = String.append (ascii_lower a) (ascii_lower b).
Proof.
  induction a as [|c a IH]; [reflexivity|].
  change (String.append (String c a) b) with (String c (String.append a b)).
  cbn [ascii_lower]. rewrite IH. reflexivity.
Qed.

Lemma ascii_lower_digits (d : string) :
  Forall is_digit (list_ascii_of_string d) → ascii_lower d = d.
Proof.
  induction d as [|c d IH]; intros Hd; [reflexivity|].
  simpl in Hd. apply Forall_cons_1 in Hd as [Hc Hd].
  simpl. rewrite (IH Hd). f_equal.
  unfold ascii_lower_char, is_digit in *.
  destruct (N.leb_spec 65 (N_of_ascii c)); [lia | reflexivity].
Qed.

Lemma is_ascii_append (a b : string) :
  is_ascii a → is_ascii b → is_ascii (String.append a b).
Proof.
  unfold is_ascii. induction a as [|c a IH]; intros Ha Hb; [exact Hb|].
  change (String.append (String c a) b) with (String c (String.append a b)).
  cbn [list_ascii_of_string] in *. apply Forall_cons_1 in Ha as [Hc Ha].
  apply Forall_cons_2; [exact Hc | by apply IH].
Qed.

Lemma is_ascii_digits (d : string) :
  Forall is_digit (list_ascii_of_string d) → is_ascii d.
Proof.
  unfold is_ascii. intros Hd. eapply Forall_impl; [exact Hd|].
  unfold is_digit. intros c Hc. lia.
Qed.

Lemma categorize_email_no_keyword (lower : string → string) (email : Email.t) :
  Forall (λ kw, is_substring kw (lower (default "" (Email.subject email)))
                = false) all_keywords →
  EmailHandler.categorize_email lower email = "low_priority".
Proof.
  intros Hall. unfold all_keywords in Hall.
  repeat (apply Forall_cons_1 in Hall as [? Hall]).
  unfold EmailHandler.categorize_email, contains_any. cbn [existsb].
  repeat match goal with H : is_substring _ _ = false |- _ =>
    rewrite H; clear H end.
  reflexivity.
Qed.

Lemma simulated_email_category (lower : string → string) (i : nat) (now : Z) :
  lowers_ascii lower →
  EmailHandler.categorize_email lower (simulated_email i now) = "low_priority".
Proof.
  intros Hlower. apply categorize_email_no_keyword. simpl default.
  pose proof (str_of_nat_digits (i + 1)) as Hdigits.
  rewrite Hlower
    by (apply is_ascii_append;
        [unfold is_ascii; simpl; repeat (apply Forall_cons_2; [reflexivity|]);
         apply Forall_nil_2
        | by apply is_ascii_digits]).
  rewrite ascii_lower_append, (ascii_lower_digits _ Hdigits).
  change (ascii_lower "Email Subject ") with "email subject ".
  unfold all_keywords.
  repeat (apply Forall_cons_2;
          [rewrite is_substring_digits_suffix by done; reflexivity|]).
  apply Forall_nil_2.
Qed.

(** X14: every email [open_emails] makes up is categorised
    ['low_priority'] (its subject holds none of the keywords), whatever
    its number, provided [str.lower] lower-cases ASCII text as it should.
    So processing what [open_emails] returned handles every one of those
    emails, none is dropped, and records each as ['low_priority'] with no
    response. *)
Theorem simulated_emails_are_low_priority (count : Z) (w : EmailHandler.World) :
  lowers_ascii (EmailHandler.str_lower w) →
  ∃ emails w1 results w2,
    EmailHandler.open_emails count w = (emails, w1) ∧
    EmailHandler.process_emails emails w1 = (results, w2) ∧
    length results = length emails ∧
    length emails
      = Z.to_nat (Z.min count
                    (EmailHandler.max_emails (EmailHandler.handler w))) ∧
    Forall (λ p, Processed.category p = "low_priority" ∧
                 Processed.response p = None ∧
                 Processed.auto_response_sent p = None) results.
Proof.
  intros Hlower.
  destruct (open_emails_run count w)
    as (emails & w1 & Hopen & Hlen & Hself & Hlow & Hnew).
  destruct (process_emails_run emails w1)
    as (results & w2 & Hrun & Hlen2 & _ & _ & _ & Hrec).
  assert (Hkept : kept_emails (EmailHandler.handler w1) emails = emails).
  { unfold kept_emails, slice_to. rewrite Hself.
    destruct (Z.ltb_spec (EmailHandler.max_emails (EmailHandler.handler w))
                (Z.of_nat (length emails))) as [Hlt|Hge]; [|reflexivity].
    assert (Hnone : length emails = 0%nat) by lia.
    apply nil_length_inv in Hnone. subst emails.
    destruct (_ <=? _)%Z; apply take_nil. }
  rewrite Hkept in Hlen2, Hrec.
  exists emails, w1, results, w2. split; [exact Hopen|]. split; [exact Hrun|].
  split; [exact Hlen2|]. split; [exact Hlen|].
  apply Forall_lookup. intros j p Hp.
  assert (Hj : (j < length emails)%nat).
  { rewrite <- Hlen2. by eapply lookup_lt_Some. }
  destruct (Hrec j _ (Hnew j Hj)) as (q & Hq & Hfrom).
  rewrite Hp in Hq. injection Hq as <-.
  destruct Hfrom as (_ & _ & _ & Hcat & _ & _ & Hsent & Hresp).
  rewrite Hlow, simulated_email_category in Hcat by exact Hlower.
  rewrite Hcat in Hsent, Hresp. unfold wants_response in Hsent, Hresp.
  rewrite andb_false_r in Hsent, Hresp. done.
Qed.

Lemma ascii_lower_lowers_ascii : lowers_ascii ascii_lower.
Proof. by intros s _. Qed.

Lemma simulated_emails_are_low_priority_witness :
  ∃ emails w1 results w2,
    EmailHandler.open_emails 50 example_handler_world = (emails, w1) ∧
    EmailHandler.process_emails emails w1 = (results, w2) ∧
    length results = 50 ∧
    Forall (λ p, Processed.category p = "low_priority" ∧
                 Processed.response p = None ∧
                 Processed.auto_response_sent p = None) results.
Proof.
  destruct (simulated_emails_are_low_priority 50 example_handler_world
              ascii_lower_lowers_ascii)
    as (emails & w1 & results & w2 & Hopen & Hrun & Hlen & Hlen' & Hall).
  exists emails, w1, results, w2. split; [exact Hopen|]. split; [exact Hrun|].
  split; [|exact Hall]. rewrite Hlen, Hlen'. reflexivity.
Defined.

(** * ai_coordinator.py *)

Lemma security_world_with_security (s : Coordinator.System) (w : World) :
  security_world (with_security s w) = w.
Proof. by destruct w. Qed.

Lemma on_security_manager_run {A : Type} (m : M A) (s : Coordinator.System)
    (o : outcome A) (w : World) :
  m (security_world s) = (o, w) →
  Coordinator.on_security_manager m s = (o, with_security s w).
Proof.
  intros Hrun. unfold Coordinator.on_security_manager.
  fold (security_world s). by rewrite Hrun.
Qed.

Lemma on_email_handler_run {A : Type} (m : EmailHandler.M A)
    (s : Coordinator.System) (a : A) (hw : EmailHandler.World) :
  m (handler_world s) = (a, hw) →
  Coordinator.on_email_handler m s = (Ret a, with_handler s hw).
Proof.
  intros Hrun. unfold Coordinator.on_email_handler.
  fold (handler_world s). by rewrite Hrun.
Qed.

Lemma bind_run {A B : Type} (m : Coordinator.C A) (k : A → Coordinator.C B)
    (s s' : Coordinator.System) (a : A) :
  m s = (Ret a, s') → (m ≫= k) s = k a s'.
Proof.
  intros Hrun. unfold mbind, Coordinator.C_bind. by rewrite Hrun.
Qed.

Lemma bind_raise {A B : Type} (m : Coordinator.C A) (k : A → Coordinator.C B)
    (s s' : Coordinator.System) (e : exn) :
  m s = (Raise e, s') → (m ≫= k) s = (Raise e, s').
Proof.
  intros Hrun. unfold mbind, Coordinator.C_bind. by rewrite Hrun.
Qed.

(** [authenticate_user] with a code supplied, in full. *)
Lemma authenticate_user_with_code (w : World) (username password code : string)
    (ttl : Z) :
  timedelta_seconds (session_timeout (self w)) = Ret ttl →
  ∃ r w',
    authenticate_user username password (Some code) w = (Ret r, w') ∧
    AuthResult.authenticated r = true ∧
    AuthResult.session_token r = Some (next_token w) ∧
    default false (AuthResult.twofa_verified r) = truthy (enable_2fa (self w)) ∧
    sessions_of w' =
      <[next_token w := new_session w username ttl]> (sessions_of w) ∧
    length (logs_of w') = S (length (logs_of w)) ∧
    (∀ n, reading w' n = reading w (4 + n)).
Proof.
  intros Httl. unfold authenticate_user. unfold_m. unfold check_2fa.
  destruct (truthy (enable_2fa (self w))) eqn:H2fa.
  all: unfold create_session, _log_access_attempt; unfold_m;
    rewrite generate_session_token_run; cbn; rewrite Httl; cbn;
    eexists _, _; (split; [reflexivity|]);
    do 4 (split; [reflexivity|]);
    (split; [unfold logs_of; cbn; rewrite length_app; simpl; lia|]);
    intros n; unfold reading; cbn; f_equal; lia.
Qed.

Lemma authenticate_user_with_code_error (w : World)
    (username password code : string) (e : exn) :
  timedelta_seconds (session_timeout (self w)) = Raise e →
  ∃ w', authenticate_user username password (Some code) w = (Raise e, w').
Proof.
  intros Httl.
  destruct (authenticate_user_type_error w username password (Some code) e)
    as (w' & Hrun & _); [by right | exact Httl |].
  by exists w'.
Qed.

Lemma enable_secure_access_run (w : World) (resources : list string) :
  ∃ r,
    enable_secure_access resources w = (Ret r, world_after datetime_now w) ∧
    SecureAccessResult.resources_secured r = length resources.
Proof.
  unfold enable_secure_access. unfold_m. rewrite append_resources_is_map.
  eexists. split; reflexivity.
Qed.

Lemma get_security_status_run (w : World) :
  get_security_status w =
    (Ret (SecurityStatus.mk (size (sessions_of w)) (length (logs_of w))
            (enable_2fa (self w)) (encryption_enabled (self w))
            (session_timeout (self w))), w).
Proof. by destruct w. Qed.

Lemma on_security_manager_after {A : Type} (m : M A) (s : Coordinator.System)
    (w : World) (o : outcome A) (w' : World) :
  m w = (o, w') →
  Coordinator.on_security_manager m (with_security s w)
    = (o, with_security s w').
Proof.
  intros Hrun.
  rewrite (on_security_manager_run m (with_security s w) o w');
    [reflexivity|].
  by rewrite security_world_with_security.
Qed.

(** ** [coordinate_secure_access] *)

(** The whole run, when the timeout is a number. *)
Lemma coordinate_secure_access_run (s : Coordinator.System)
    (username password : string) (ttl : Z) :
  timedelta_seconds (session_timeout (self (security_world s))) = Ret ttl →
  ∃ r w,
    Coordinator.coordinate_secure_access username password s
      = (Ret (Coordinator.Secure r),
         Coordinator.mk_System
           (Coordinator.mk
              (Coordinator.email_handler (Coordinator.coordinator s))
              (self w)
              (tasks_of s ++ [Coordinator.Secure r]))
           (env w) (Coordinator.sys_lower s)) ∧
    Coordinator.SecureTask.task r = "secure_access" ∧
    Coordinator.SecureTask.status r = "completed" ∧
    Coordinator.SecureTask.username r = username ∧
    Coordinator.SecureTask.authenticated r = true ∧
    Coordinator.SecureTask.twofa_verified r
      = truthy (enable_2fa (self (security_world s))) ∧
    Coordinator.SecureTask.resources_secured r = 5 ∧
    (Coordinator.SecureTask.email_system r = true ↔
     (system_reading s 6 ≤ system_reading s 2 + ttl)%Z) ∧
    SecurityStatus.total_access_logs (Coordinator.SecureTask.security_status r)
      = (length (logs_of (security_world s))
         + if Coordinator.SecureTask.email_system r then 2 else 1)%nat ∧
    length (logs_of w)
      = (length (logs_of (security_world s))
         + if Coordinator.SecureTask.email_system r then 2 else 1)%nat ∧
    clock (env w) = clock (Coordinator.sys_env s).
Proof.
  intros Httl. set (w0 := security_world s) in *.
  destruct (authenticate_user_with_code w0 username password "123456" ttl Httl)
    as (r1 & w1 & Hrun1 & Hauth & Htok & H2fa & Hsess1 & Hlogs1 & Hclock1).
  destruct (enable_secure_access_run w1
              ["email_system"; "file_storage"; "user_dashboard"; "api_gateway";
               "database"]) as (r2 & Hrun2 & Hcount).
  assert (Hsess2 : sessions_of (world_after datetime_now w1) = sessions_of w1)
    by reflexivity.
  assert (Hlogs2 : logs_of (world_after datetime_now w1) = logs_of w1)
    by reflexivity.
  assert (Hreads2 : ∀ n, reading (world_after datetime_now w1) n
                         = reading w1 (S n)).
  { intros n. unfold reading, world_after, datetime_now. cbn. f_equal. lia. }
  set (w2 := world_after datetime_now w1) in *.
  assert (Hlook : sessions_of w2 !! next_token w0
                  = Some (new_session w0 username ttl)).
  { rewrite Hsess2, Hsess1. apply lookup_insert_eq. }
  assert (Hclock2 : ∀ n, reading w2 n = reading w0 (5 + n)).
  { intros n. by rewrite Hreads2, Hclock1. }
  assert (Hsys : ∀ n, reading w0 n = system_reading s n) by reflexivity.
  unfold Coordinator.coordinate_secure_access.
  rewrite (bind_run _ _ _ _ _ (on_security_manager_run _ s _ _ Hrun1)).
  rewrite Hauth. cbn [negb].
  rewrite (bind_run _ _ _ _ _ (on_security_manager_after _ s _ _ _ Hrun2)).
  rewrite Htok. cbn [secure_online_access_entry].
  destruct (decide (Session.expires_at (new_session w0 username ttl)
                    < reading w2 1)%Z) as [Hexp|Hlive].
  - destruct (secure_online_access_expired w2 (next_token w0) "email_system" _
                Hlook Hexp) as (w3 & Hrun3 & _ & Hlogs3 & Hclock3 & _).
    rewrite (bind_run _ _ _ _ _ (on_security_manager_after _ s _ _ _ Hrun3)).
    rewrite (bind_run _ _ _ _ _
               (on_security_manager_after _ s _ _ _ (get_security_status_run w3))).
    rewrite Hclock2 in Hexp. cbn [new_session Session.expires_at] in Hexp.
    change (5 + 1)%nat with 6%nat in Hexp.
    eexists _, (world_after datetime_now w3). split; [reflexivity|].
    cbn [Coordinator.SecureTask.task Coordinator.SecureTask.status
         Coordinator.SecureTask.username Coordinator.SecureTask.authenticated
         Coordinator.SecureTask.twofa_verified
         Coordinator.SecureTask.resources_secured
         Coordinator.SecureTask.email_system
         Coordinator.SecureTask.security_status
         SecurityStatus.total_access_logs AccessResult.access_granted].
    do 4 (split; [reflexivity|]). split; [exact H2fa|].
    split; [exact Hcount|]. rewrite <- !Hsys.
    split; [split; [done | simpl; lia]|].
    rewrite Hlogs2 in Hlogs3.
    split; [rewrite Hlogs3, Hlogs1; lia|].
    split; [change (logs_of (world_after datetime_now w3)) with (logs_of w3);
            rewrite Hlogs3, Hlogs1; lia|].
    change (clock (env w3) = clock (env w0)). rewrite Hclock3.
    destruct (exec_same_setting (AuthenticateUser username password
                                   (Some "123456")) w0) as [Hc _].
    simpl in Hc. unfold world_after in Hc. rewrite Hrun1 in Hc. exact Hc.
  - destruct (secure_online_access_granted w2 (next_token w0) "email_system" _
                Hlook Hlive) as (a & w3 & Hrun3 & -> & _ & Hlogs3).
    rewrite (bind_run _ _ _ _ _ (on_security_manager_after _ s _ _ _ Hrun3)).
    rewrite (bind_run _ _ _ _ _
               (on_security_manager_after _ s _ _ _ (get_security_status_run w3))).
    rewrite Hclock2 in Hlive. cbn [new_session Session.expires_at] in Hlive.
    change (5 + 1)%nat with 6%nat in Hlive.
    eexists _, (world_after datetime_now w3). split; [reflexivity|].
    cbn [Coordinator.SecureTask.task Coordinator.SecureTask.status
         Coordinator.SecureTask.username Coordinator.SecureTask.authenticated
         Coordinator.SecureTask.twofa_verified
         Coordinator.SecureTask.resources_secured
         Coordinator.SecureTask.email_system
         Coordinator.SecureTask.security_status
         SecurityStatus.total_access_logs AccessResult.access_granted].
    do 4 (split; [reflexivity|]). split; [exact H2fa|].
    split; [exact Hcount|]. rewrite <- !Hsys.
    split; [split; [simpl; lia | done]|].
    rewrite Hlogs2 in Hlogs3.
    split; [rewrite Hlogs3, length_app, Hlogs1; simpl; lia|].
    split; [change (logs_of (world_after datetime_now w3)) with (logs_of w3);
            rewrite Hlogs3, length_app, Hlogs1; simpl; lia|].
    change (clock (env w3) = clock (env w0)).
    destruct (exec_same_setting (SecureOnlineAccess (next_token w0)
                                   "email_system") w2) as [Hc3 _].
    simpl in Hc3. unfold world_after in Hc3. rewrite Hrun3 in Hc3.
    cbn [snd] in Hc3. rewrite Hc3.
    destruct (exec_same_setting (AuthenticateUser username password
                                   (Some "123456")) w0) as [Hc _].
    simpl in Hc. unfold world_after in Hc. rewrite Hrun1 in Hc. exact Hc.
Qed.



Lemma coordinate_secure_access_error (s : Coordinator.System)
    (username password : string) (e : exn) :
  timedelta_seconds (session_timeout (self (security_world s))) = Raise e →
  ∃ s', Coordinator.coordinate_secure_access username password s
          = (Raise e, s').
Proof.
  intros Httl.
  destruct (authenticate_user_with_code_error (security_world s) username
              password "123456" e Httl) as (w' & Hrun).
  unfold Coordinator.coordinate_secure_access.
  rewrite (bind_raise _ _ _ _ _ (on_security_manager_run _ s _ _ Hrun)).
  by eexists.
Qed.

(** X16: the ['failed'] result of [coordinate_secure_access] is never
    returned: whenever the call returns, what it returns is the
    ['completed'] result, and that result is the last entry of the task
    log. *)
Theorem coordinate_secure_access_never_fails (s s' : Coordinator.System)
    (username password : string) (result : Coordinator.task_result) :
  Coordinator.coordinate_secure_access username password s = (Ret result, s') →
  Coordinator.status_of result = "completed" ∧
  (∃ r, result = Coordinator.Secure r) ∧
  tasks_of s' = tasks_of s ++ [result].
Proof.
  intros Hrun.
  destruct (timedelta_seconds (session_timeout (self (security_world s))))
    as [ttl|e] eqn:Httl.
  - destruct (coordinate_secure_access_run s username password ttl Httl)
      as (r & w & Hrun' & _ & Hstatus & _).
    rewrite Hrun in Hrun'. injection Hrun' as -> ->.
    split; [exact Hstatus|]. split; [by exists r | reflexivity].
  - destruct (coordinate_secure_access_error s username password e Httl)
      as (s2 & Hrun').
    rewrite Hrun in Hrun'. discriminate Hrun'.
Qed.

Lemma coordinate_secure_access_never_fails_witness :
  ∃ result s',
    Coordinator.coordinate_secure_access "admin" "secure_password"
      example_system = (Ret result, s') ∧
    Coordinator.status_of result = "completed" ∧
    tasks_of s' = [result].
Proof.
  destruct (coordinate_secure_access_run example_system "admin"
              "secure_password" 3600000000%Z eq_refl) as (r & w & Hrun & _).
  eexists _, _. split; [exact Hrun|].
  destruct (coordinate_secure_access_never_fails _ _ _ _ _ Hrun)
    as (Hstatus & _ & Hlog).
  split; [exact Hstatus | exact Hlog].
Defined.

(** ** [coordinate_email_processing] *)

Lemma handler_world_with_handler (s : Coordinator.System)
    (hw : EmailHandler.World) :
  EmailHandler.str_lower hw = Coordinator.sys_lower s →
  handler_world (with_handler s hw) = hw.
Proof. intros Hlower. destruct hw. simpl in *. by subst. Qed.

Lemma get_statistics_run (hw : EmailHandler.World) :
  ∃ st,
    EmailHandler.get_statistics hw = (st, hw) ∧
    Statistics.total_processed st
      = length (EmailHandler.processed_emails (EmailHandler.handler hw)).
Proof. eexists. split; [by destruct hw | reflexivity]. Qed.

(** What [open_emails] returns is never cut short by [process_emails]. *)
Lemma opened_emails_all_kept (self : EmailHandler.t) (count : Z)
    (emails : list Email.t) :
  length emails = Z.to_nat (Z.min count (EmailHandler.max_emails self)) →
  kept_emails self emails = emails.
Proof.
  intros Hlen. unfold kept_emails, slice_to.
  destruct (Z.ltb_spec (EmailHandler.max_emails self)
              (Z.of_nat (length emails))) as [Hlt|Hge]; [|reflexivity].
  assert (Hnone : length emails = 0%nat) by lia.
  apply nil_length_inv in Hnone. subst emails.
  destruct (_ <=? _)%Z; apply take_nil.
Qed.

Lemma coordinate_email_processing_run (s : Coordinator.System) (num_emails : Z) :
  ∃ r hw,
    Coordinator.coordinate_email_processing num_emails s
      = (Ret r,
         Coordinator.mk_System
           (Coordinator.mk (EmailHandler.handler hw)
              (Coordinator.security_manager (Coordinator.coordinator s))
              (tasks_of s ++ [Coordinator.Email r]))
           (EmailHandler.env hw) (Coordinator.sys_lower s)) ∧
    Coordinator.EmailTask.task r = "email_processing" ∧
    Coordinator.EmailTask.status r = "completed" ∧
    Coordinator.EmailTask.emails_opened r
      = Z.to_nat (Z.min num_emails
                    (EmailHandler.max_emails
                       (EmailHandler.handler (handler_world s)))) ∧
    Coordinator.EmailTask.emails_processed r
      = Coordinator.EmailTask.emails_opened r ∧
    Statistics.total_processed (Coordinator.EmailTask.statistics r)
      = (length (EmailHandler.processed_emails
                   (EmailHandler.handler (handler_world s)))
         + Coordinator.EmailTask.emails_processed r)%nat.
Proof.
  set (hw0 := handler_world s).
  destruct (open_emails_run num_emails hw0)
    as (emails & hw1 & Hopen & Hlen & Hself1 & Hlower1 & _).
  destruct (process_emails_run emails hw1)
    as (results & hw2 & Hrun & Hlen2 & Hlog2 & Hsame2 & _).
  rewrite (opened_emails_all_kept _ num_emails) in Hlen2
    by (rewrite Hself1; exact Hlen).
  destruct (get_statistics_run hw2) as (st & Hstats & Htotal).
  assert (Hlower2 : EmailHandler.str_lower hw2 = Coordinator.sys_lower s).
  { destruct Hsame2 as (_ & _ & _ & -> & _). exact Hlower1. }
  unfold Coordinator.coordinate_email_processing.
  rewrite (bind_run _ _ _ _ _ (on_email_handler_run _ s _ _ Hopen)).
  rewrite (bind_run _ _ _ _ _
             (on_email_handler_run _ (with_handler s hw1) _ hw2
                ltac:(rewrite handler_world_with_handler by exact Hlower1;
                      exact Hrun))).
  rewrite (bind_run _ _ _ _ _
             (on_email_handler_run _ (with_handler (with_handler s hw1) hw2)
                _ hw2
                ltac:(rewrite handler_world_with_handler by exact Hlower2;
                      exact Hstats))).
  eexists _,
    (EmailHandler.mk_World (EmailHandler.handler hw2)
       (EmailHandler.env
          (EmailHandler.datetime_now hw2).2) (EmailHandler.str_lower hw2)).
  split; [reflexivity|].
  cbn [Coordinator.EmailTask.task Coordinator.EmailTask.status
       Coordinator.EmailTask.emails_opened
       Coordinator.EmailTask.emails_processed
       Coordinator.EmailTask.statistics EmailHandler.handler].
  do 2 (split; [reflexivity|]). split; [exact Hlen|].
  split; [by rewrite Hlen2|].
  rewrite Htotal, Hlog2, length_app, Hself1. reflexivity.
Qed.

(** X17: [coordinate_email_processing(n)] always returns the
    ['completed'] result: it opens [min(n, max_emails)] emails (none if
    that is not positive) and processes every one of them, so the two
    counts in the result agree; the statistics in the result count the
    records kept before plus the new ones; the result is appended to the
    task log and the security manager is left alone. *)
Theorem coordinate_email_processing_counts (s : Coordinator.System)
    (num_emails : Z) :
  ∃ r s',
    Coordinator.coordinate_email_processing num_emails s = (Ret r, s') ∧
    Coordinator.EmailTask.status r = "completed" ∧
    Coordinator.EmailTask.emails_opened r
      = Z.to_nat (Z.min num_emails
                    (EmailHandler.max_emails
                       (Coordinator.email_handler (Coordinator.coordinator s)))) ∧
    Coordinator.EmailTask.emails_processed r
      = Coordinator.EmailTask.emails_opened r ∧
    Statistics.total_processed (Coordinator.EmailTask.statistics r)
      = (length (EmailHandler.processed_emails
                   (Coordinator.email_handler (Coordinator.coordinator s)))
         + Coordinator.EmailTask.emails_processed r)%nat ∧
    tasks_of s' = tasks_of s ++ [Coordinator.Email r] ∧
    Coordinator.security_manager (Coordinator.coordinator s')
      = Coordinator.security_manager (Coordinator.coordinator s).
Proof.
  destruct (coordinate_email_processing_run s num_emails)
    as (r & hw & Hrun & _ & Hstatus & Hopened & Hprocessed & Htotal).
  eexists r, _. split; [exact Hrun|].
  split; [exact Hstatus|]. split; [exact Hopened|]. split; [exact Hprocessed|].
  split; [exact Htotal|]. split; reflexivity.
Qed.

(** ** [run_full_coordination] and the report *)



(** ** Keywords in any letter case *)

Lemma prefix_self_append (kw b : string) :
  String.prefix kw (String.append kw b) = true.
Proof.
  induction kw as [|c kw IH]; [apply prefix_empty|].
  change (String.append (String c kw) b) with (String c (String.append kw b)).
  cbn [String.prefix]. by destruct (ascii_dec c c).
Qed.

Lemma is_substring_intro (kw a b : string) :
  is_substring kw (String.append a (String.append kw b)) = true.
Proof.
  induction a as [|y a IH].
  - change (String.append "" (String.append kw b)) with (String.append kw b).
    destruct (String.append kw b) eqn:Happ; cbn [is_substring];
      rewrite <- Happ, prefix_self_append; reflexivity.
  - change (String.append (String y a) (String.append kw b))
      with (String y (String.append a (String.append kw b))).
    cbn [is_substring]. rewrite IH. apply orb_true_r.
Qed.

(** X19: an ASCII subject in which one of the words [urgent], [asap],
    [critical] or [emergency] occurs anywhere, in any mix of upper and
    lower case, even inside a longer word and even next to keywords of
    other categories, is categorised ['urgent'], provided [str.lower]
    lower-cases ASCII text. *)
Theorem categorize_email_urgent_any_case (lower : string → string)
    (email : Email.t) (before word after keyword : string) :
  lowers_ascii lower →
  Email.subject email
    = Some (String.append before (String.append word after)) →
  is_ascii before → is_ascii word → is_ascii after →
  ascii_lower word = keyword →
  keyword ∈ ["urgent"; "asap"; "critical"; "emergency"] →
  EmailHandler.categorize_email lower email = "urgent".
Proof.
  intros Hlower Hsubject Hb Hw Ha Hword Hkw.
  unfold EmailHandler.categorize_email. rewrite Hsubject. simpl default.
  rewrite Hlower by (by repeat apply is_ascii_append).
  rewrite !ascii_lower_append, Hword.
  assert (Hfound : contains_any ["urgent"; "asap"; "critical"; "emergency"]
            (String.append (ascii_lower before)
               (String.append keyword (ascii_lower after))) = true).
  { unfold contains_any. apply existsb_exists. exists keyword.
    split; [by apply list_elem_of_In | apply is_substring_intro]. }
  by rewrite Hfound.
Qed.

Lemma categorize_email_urgent_any_case_witness :
  EmailHandler.categorize_email ascii_lower
    (Email.mk None (Some "FYI: Update on the eMERGENCy drill") None None None)
  = "urgent".
Proof.
  apply (categorize_email_urgent_any_case ascii_lower _
           "FYI: Update on the " "eMERGENCy" " drill" "emergency").
  - apply ascii_lower_lowers_ascii.
  - reflexivity.
  - unfold is_ascii. simpl.
    repeat (apply Forall_cons_2; [reflexivity|]). apply Forall_nil_2.
  - unfold is_ascii. simpl.
    repeat (apply Forall_cons_2; [reflexivity|]). apply Forall_nil_2.
  - unfold is_ascii. simpl.
    repeat (apply Forall_cons_2; [reflexivity|]). apply Forall_nil_2.
  - reflexivity.
  - repeat first [by left | right].
Defined.

(** ** A timeout that is not a number *)

(** X20: when [session_timeout] is a configuration value that is not a
    number ([null], a string, a list or an object; none of them an
    integer or a boolean), every call to [authenticate_user] that gets
    past the second-factor gate raises [TypeError]: a token has been drawn
    by then, but no session is stored and nothing is logged. *)
Theorem authenticate_user_bad_timeout (w : World) (username password : string)
    (code : option string) :
  truthy (enable_2fa (self w)) = false ∨ code ≠ None →
  (∀ n, session_timeout (self w) ≠ PInt n) →
  (∀ b, session_timeout (self w) ≠ PBool b) →
  ∃ w',
    authenticate_user username password code w = (Raise TypeError, w') ∧
    self w' = self w ∧
    urandom_reads (env w') = (urandom_reads (env w) + 32)%nat.
Proof.
  intros Hgate Hint Hbool.
  assert (Httl : timedelta_seconds (session_timeout (self w)) = Raise TypeError).
  { destruct (session_timeout (self w)) as [| b | n | | |] eqn:Hst;
      try reflexivity; [by destruct (Hbool b) | by destruct (Hint n)]. }
  unfold authenticate_user. unfold_m.
  destruct (check_2fa_pass (self w) code
              (AuthResult.set_authenticated true
                 (AuthResult.mk username false None None
                    (clock (env w) (clock_reads (env w))) None None)) Hgate)
    as [v ->].
  unfold create_session. unfold_m.
  rewrite generate_session_token_run. cbn. rewrite Httl. cbn.
  eexists. split; [reflexivity|]. split; reflexivity.
Qed.

Lemma authenticate_user_bad_timeout_witness :
  ∃ w',
    authenticate_user "alice" "pw" (Some "123456")
      (mk_World
         (mk_SecurityManagerAI PNone (PBool true) (PStr "1h") (PBool true)
            PNone ∅ [])
         example_env) = (Raise TypeError, w') ∧
    sessions_of w' = ∅ ∧ logs_of w' = [].
Proof.
  destruct (authenticate_user_bad_timeout
              (mk_World
                 (mk_SecurityManagerAI PNone (PBool true) (PStr "1h")
                    (PBool true) PNone ∅ [])
                 example_env) "alice" "pw" (Some "123456"))
    as (w' & Hrun & Hself & _); [by right | done | done |].
  exists w'. split; [exact Hrun|].
  unfold sessions_of, logs_of. rewrite Hself. by split.
Defined.

(** X21: with such a timeout [run_full_coordination] raises the same
    [TypeError] before any task is done: no task is logged, the email
    handler has not been used, and the manager holds the sessions and the
    audit log it had. *)
Theorem run_full_coordination_bad_timeout (s : Coordinator.System)
    (num_emails : Z) (e : exn) :
  timedelta_seconds (session_timeout (self (security_world s))) = Raise e →
  ∃ s',
    Coordinator.run_full_coordination num_emails s = (Raise e, s') ∧
    tasks_of s' = tasks_of s ∧
    Coordinator.email_handler (Coordinator.coordinator s')
      = Coordinator.email_handler (Coordinator.coordinator s) ∧
    Coordinator.security_manager (Coordinator.coordinator s')
      = Coordinator.security_manager (Coordinator.coordinator s).
Proof.
  intros Httl. unfold Coordinator.run_full_coordination.
  set (s1 := (Coordinator.datetime_now s).2).
  rewrite (bind_run _ _ s s1 _ eq_refl).
  destruct (authenticate_user_type_error (security_world s1) "admin"
              "secure_password" (Some "123456") e)
    as (w' & Hrun & Hself & _); [by right | exact Httl |].
  unfold Coordinator.coordinate_secure_access.
  rewrite (bind_raise _ _ _ _ _
             (bind_raise _ _ _ _ _ (on_security_manager_run _ s1 _ _ Hrun))).
  eexists. split; [reflexivity|]. split; [reflexivity|].
  split; [reflexivity|]. cbn. exact Hself.
Qed.

Lemma run_full_coordination_bad_timeout_witness :
  ∃ s',
    Coordinator.run_full_coordination 50
      (Coordinator.mk_System
         (Coordinator.mk example_handler
            (mk_SecurityManagerAI PNone (PBool true) (PStr "1h") (PBool true)
               PNone ∅ [])
            [])
         example_env ascii_lower) = (Raise TypeError, s') ∧
    tasks_of s' = [].
Proof.
  destruct (run_full_coordination_bad_timeout
              (Coordinator.mk_System
                 (Coordinator.mk example_handler
                    (mk_SecurityManagerAI PNone (PBool true) (PStr "1h")
                       (PBool true) PNone ∅ [])
                    [])
                 example_env ascii_lower) 50 TypeError eq_refl)
    as (s' & Hrun & Hlog & _).
  by exists s'.
Defined.
